(** * RayTracingUBO: the frame-exact ray-tracing session of [main.cpp]

    A shallow embedding of [src/RayTracingUBO/main.cpp] and the properties
    of its camera-ray generator, scene animator, buffer uploads and
    capture loop.

    Numeric model.  The C++ types [float] and [double] are modelled by the
    real numbers [R]: rounding is abstracted away, every formula of the
    source is kept.  The C++ type [int] and the OpenGL handle type
    [GLuint] are modelled by [Z]; the counters of the session stay far
    below the 32-bit range. *)

From Stdlib Require Import Reals Lra Lia ZArith List String Ascii Bool.
From Stdlib Require Import DecimalString DecimalZ FinFun.
Import ListNotations.

Open Scope R_scope.

(** ** The part of GLM that [main.cpp] uses

    GLM is a library outside this repository.  The definitions below
    follow its column-major conventions: a [mat4] is four column vectors,
    [m * v] treats [v] as a column, [v * m] treats [v] as a row. *)

Module glm.

Record vec3 : Type := mkvec3 { x3 : R; y3 : R; z3 : R }.

Record vec4 : Type := mkvec4 { x4 : R; y4 : R; z4 : R; w4 : R }.

(** Columns [c0 .. c3], as [m[0] .. m[3]] in GLM. *)
Record mat4 : Type := mkmat4 { c0 : vec4; c1 : vec4; c2 : vec4; c3 : vec4 }.

(** [glm::vec3(s)]: the same scalar in every component. *)
Definition splat3 (s : R) : vec3 := mkvec3 s s s.

(** [glm::vec4(v, w)] and [glm::vec3(v4)]. *)
Definition vec4_of (v : vec3) (w : R) : vec4 := mkvec4 (x3 v) (y3 v) (z3 v) w.

Definition vec3_of (v : vec4) : vec3 := mkvec3 (x4 v) (y4 v) (z4 v).

Definition sub3 (a b : vec3) : vec3 :=
  mkvec3 (x3 a - x3 b) (y3 a - y3 b) (z3 a - z3 b).

Definition add3 (a b : vec3) : vec3 :=
  mkvec3 (x3 a + x3 b) (y3 a + y3 b) (z3 a + z3 b).

Definition neg3 (a : vec3) : vec3 := mkvec3 (- x3 a) (- y3 a) (- z3 a).

(** [s * v] and [v / s]. *)
Definition smul3 (s : R) (v : vec3) : vec3 :=
  mkvec3 (s * x3 v) (s * y3 v) (s * z3 v).

Definition sdiv3 (v : vec3) (s : R) : vec3 :=
  mkvec3 (x3 v / s) (y3 v / s) (z3 v / s).

Definition dot3 (a b : vec3) : R := x3 a * x3 b + y3 a * y3 b + z3 a * z3 b.

(** [glm::cross]. *)
Definition cross (a b : vec3) : vec3 :=
  mkvec3 (y3 a * z3 b - y3 b * z3 a)
         (z3 a * x3 b - z3 b * x3 a)
         (x3 a * y3 b - x3 b * y3 a).

(** [glm::normalize(v) = v * inversesqrt(dot(v, v))]. *)
Definition normalize (v : vec3) : vec3 := smul3 (/ sqrt (dot3 v v)) v.

Definition add4 (a b : vec4) : vec4 :=
  mkvec4 (x4 a + x4 b) (y4 a + y4 b) (z4 a + z4 b) (w4 a + w4 b).

Definition smul4 (v : vec4) (s : R) : vec4 :=
  mkvec4 (x4 v * s) (y4 v * s) (z4 v * s) (w4 v * s).

Definition dot4 (a b : vec4) : R :=
  x4 a * x4 b + y4 a * y4 b + z4 a * z4 b + w4 a * w4 b.

(** [glm::mat4()]: the identity (the constructor of the GLM versions this
    tutorial was written for initialises to the identity, which is how
    every use in [main.cpp] reads it). *)
Definition identity : mat4 :=
  mkmat4 (mkvec4 1 0 0 0) (mkvec4 0 1 0 0) (mkvec4 0 0 1 0) (mkvec4 0 0 0 1).

(** [glm::radians]. *)
Definition radians (degrees : R) : R := degrees * (PI / 180).

(** [glm::translate(m, v)]: only the last column changes. *)
Definition translate (m : mat4) (v : vec3) : mat4 :=
  mkmat4 (c0 m) (c1 m) (c2 m)
         (add4 (add4 (add4 (smul4 (c0 m) (x3 v)) (smul4 (c1 m) (y3 v)))
                     (smul4 (c2 m) (z3 v)))
               (c3 m)).

(** [glm::scale(m, v)]. *)
Definition scale (m : mat4) (v : vec3) : mat4 :=
  mkmat4 (smul4 (c0 m) (x3 v)) (smul4 (c1 m) (y3 v)) (smul4 (c2 m) (z3 v))
         (c3 m).

(** [glm::rotate(m, angle, v)], angle in radians. *)
Definition rotate (m : mat4) (angle : R) (v : vec3) : mat4 :=
  let c := cos angle in
  let s := sin angle in
  let axis := normalize v in
  let temp := smul3 (1 - c) axis in
  let r00 := c + x3 temp * x3 axis in
  let r01 := x3 temp * y3 axis + s * z3 axis in
  let r02 := x3 temp * z3 axis - s * y3 axis in
  let r10 := y3 temp * x3 axis - s * z3 axis in
  let r11 := c + y3 temp * y3 axis in
  let r12 := y3 temp * z3 axis + s * x3 axis in
  let r20 := z3 temp * x3 axis + s * y3 axis in
  let r21 := z3 temp * y3 axis - s * x3 axis in
  let r22 := c + z3 temp * z3 axis in
  mkmat4
    (add4 (add4 (smul4 (c0 m) r00) (smul4 (c1 m) r01)) (smul4 (c2 m) r02))
    (add4 (add4 (smul4 (c0 m) r10) (smul4 (c1 m) r11)) (smul4 (c2 m) r12))
    (add4 (add4 (smul4 (c0 m) r20) (smul4 (c1 m) r21)) (smul4 (c2 m) r22))
    (c3 m).

(** [v * m]: the row vector [v] times [m]; component [i] is the dot
    product of [v] with column [i]. *)
Definition vec_mul_mat (v : vec4) (m : mat4) : vec4 :=
  mkvec4 (dot4 (c0 m) v) (dot4 (c1 m) v) (dot4 (c2 m) v) (dot4 (c3 m) v).

(** [m * v]: the matrix applied to the column vector [v]. *)
Definition mat_mul_vec (m : mat4) (v : vec4) : vec4 :=
  add4 (add4 (add4 (smul4 (c0 m) (x4 v)) (smul4 (c1 m) (y4 v)))
             (smul4 (c2 m) (z4 v)))
       (smul4 (c3 m) (w4 v)).

(** [a * b] on matrices: column [i] of the product is [a] applied to
    column [i] of [b]. *)
Definition mat_mul (a b : mat4) : mat4 :=
  mkmat4 (mat_mul_vec a (c0 b)) (mat_mul_vec a (c1 b))
         (mat_mul_vec a (c2 b)) (mat_mul_vec a (c3 b)).

End glm.

Import glm.

(** ** Data shared with the shaders *)

Record triangle : Type := mktriangle {
  a : vec4; b : vec4; c : vec4; normal : vec4; color : vec4 }.

(** [triangle triangles[12]]: twelve slots, [None] for a slot that was
    never assigned.  The three [junk] integers are padding and carry no
    data. *)
Record Mesh : Type := mkMesh {
  numTriangles : Z;
  triangles : list (option triangle) }.

(** The two [junk] floats are padding and carry no data. *)
Record light : Type := mklight {
  pos : vec4; lcolor : vec4; radius : R; brightness : R }.

(** Sizes in bytes, with 4-byte [float] and [int]. *)
Definition sizeof_vec4 : Z := 4 * 4.
Definition sizeof_triangle : Z := 5 * sizeof_vec4.
Definition Mesh_capacity : Z := 12.
Definition sizeof_Mesh : Z := 4 * 4 + Mesh_capacity * sizeof_triangle.
Definition sizeof_light : Z := 2 * sizeof_vec4 + 4 * 4.
Definition sizeof_mat4x4 : Z := 4 * sizeof_vec4.

Definition compToFragSize : Z := sizeof_triangle * 14.
Definition lightToFragSize : Z := sizeof_light * 2.
Definition matrixBufferSize : Z := sizeof_mat4x4 * 2.
Definition triangleBufferSize : Z := sizeof_Mesh * 2.

Definition videoFPS : Z := 60.
Definition videoSeconds : Z := 10.
Definition maxFrames : Z := videoFPS * videoSeconds.

(** ** Calls that leave the program

    The session talks to OpenGL, GLFW, FreeImage, the console and the
    shell.  Each call is recorded as an event, in program order; where
    the outside world answers (a compile or link status), the answer is
    part of the event. *)

Inductive GLenum : Type :=
  GL_VERTEX_SHADER | GL_FRAGMENT_SHADER | GL_COMPUTE_SHADER.

Inductive target : Type := GL_UNIFORM_BUFFER | GL_SHADER_STORAGE_BUFFER.

Inductive usage : Type := GL_STATIC_DRAW | GL_DYNAMIC_DRAW.

(** What the [data] pointer of [glBufferData] points to. *)
Inductive payload : Type :=
| nullptr
| mat4_array (ms : list mat4)
| Mesh_array (ms : list Mesh)
| light_array (ls : list light).

Inductive event : Type :=
| glfwInit
| glfwCreateWindow (w h : Z)
| glfwSetWindowSizeCallback
| glfwMakeContextCurrent
| glfwSwapInterval (n : Z)
| glewInit
| cout (s : string)
| glCreateShader (type : GLenum) (shader : Z)
| glShaderSource (shader : Z) (code : string)
| glCompileShader (shader : Z) (isCompiled : bool)
| glDeleteShader (shader : Z)
| glCreateProgram (program : Z)
| glAttachShader (program shader : Z)
| glLinkProgram (program : Z) (linked : bool)
| glUseProgram (program : Z)
| glGenBuffers (buffer : Z)
| glBindBuffer (t : target) (buffer : Z)
| glBufferData (t : target) (size : Z) (data : payload) (u : usage)
| glBindBufferBase (t : target) (index buffer : Z)
| glDispatchCompute (nx ny nz : Z)
| glUniform3f (location : Z) (x y z : R)
| glDrawArrays (first count : Z)
| glViewport (x y w h : Z)
| glfwSetWindowTitle (s : string)
| glfwSwapBuffers
| glfwPollEvents
| CreateDirectoryA (name : string)
| glReadPixels (x y w h : Z) (pixels : Z)
| FreeImage_ConvertFromRawBits (w h pitch : Z)
| FreeImage_Save (fileName : string)
| FreeImage_Unload
| glDeleteProgram (program : Z)
| delete_pixels
| glfwTerminate
| system (command : string).

(** In [glReadPixels x y w h pixels] the last field is the size in bytes
    of the array the call writes to; the call itself writes [3 * w * h]
    bytes. *)

(** What the outside world decides. *)
Record Env : Type := mkEnv {
  file : string -> option string;
  shader_name : nat -> Z;
  program_name : nat -> Z;
  buffer_name : nat -> Z;
  compile_log : GLenum -> string -> option string;
  link_ok : Z -> bool;
  uniform_location : Z -> string -> Z;
  clock : nat -> R;
  resizes : nat -> list (Z * Z) }.

(** [file]: contents of a readable file.  [shader_name k], [program_name
    k], [buffer_name k]: the handle returned by the [k]-th call of
    [glCreateShader], [glCreateProgram], [glGenBuffers].  [compile_log]:
    [None] when the shader compiles, [Some infolog] when it does not.
    [clock n]: what [glfwGetTime] returns in iteration [n] of the capture
    loop.  [resizes n]: the window sizes reported during the
    [glfwPollEvents] of iteration [n]. *)

(** ** Globals of [main.cpp] *)

Record Globals : Type := mkGlobals {
  compToFrag : Z;
  lightToFrag : Z;
  matrixBuffer : Z;
  triangleBuffer : Z;
  draw_program : Z;
  transform_program : Z;
  vertex_shader : Z;
  fragment_shader : Z;
  compute_shader : Z;
  eye_loc : Z;
  ray00 : Z;
  ray01 : Z;
  ray10 : Z;
  ray11 : Z;
  cameraPos : vec3;
  tempFrame : Z;
  totalFrame : Z;
  dtime : R;
  timebase : R;
  totalTime : R;
  fps : Z;
  width : Z;
  height : Z }.

Definition initial_globals : Globals :=
  {| compToFrag := 0; lightToFrag := 0; matrixBuffer := 0;
     triangleBuffer := 0; draw_program := 0; transform_program := 0;
     vertex_shader := 0; fragment_shader := 0; compute_shader := 0;
     eye_loc := 0; ray00 := 0; ray01 := 0; ray10 := 0; ray11 := 0;
     cameraPos := mkvec3 0 0 0;
     tempFrame := 0; totalFrame := 0;
     dtime := 0; timebase := 0; totalTime := 0; fps := 0;
     width := 1280; height := 720 |}.

(** [std::to_string] and [%d] on an [int]: plain decimal. *)
Definition to_string (z : Z) : string := NilEmpty.string_of_int (Z.to_int z).

(** [(int)x] on a [double]: truncation toward zero. *)
Definition double_to_int (x : R) : Z :=
  if Rlt_dec x 0 then (- Int_part (- x))%Z else Int_part x.

(** ** [calcCameraRays] *)

(** The values [calcCameraRays] hands to the shader: the eye and the four
    corner rays. *)
Record CameraFrame : Type := mkCameraFrame {
  eyeOut : vec3; r00 : vec3; r01 : vec3; r10 : vec3; r11 : vec3 }.

(** The computation of [calcCameraRays], before the five [glUniform3f]
    calls. *)
Definition cameraRays (eye center up : vec3) (fov ratio : R) : CameraFrame :=
  let centerRay := sub3 center eye in
  let w := neg3 centerRay in
  let u := cross up w in
  let v := cross w u in
  let uRotateLeft :=
    vec_mul_mat (vec4_of u 1) (rotate identity (radians (- fov * ratio / 2)) v) in
  let uRotateRight :=
    vec_mul_mat (vec4_of u 1) (rotate identity (radians (fov * ratio / 2)) v) in
  let r00 :=
    vec_mul_mat
      (vec_mul_mat (vec4_of centerRay 1)
                   (rotate identity (radians (- fov * ratio / 2)) v))
      (rotate identity (radians (fov / 2)) (vec3_of uRotateLeft)) in
  let r01 :=
    vec_mul_mat
      (vec_mul_mat (vec4_of centerRay 1)
                   (rotate identity (radians (- fov * ratio / 2)) v))
      (rotate identity (radians (- fov / 2)) (vec3_of uRotateLeft)) in
  let r10 :=
    vec_mul_mat
      (vec_mul_mat (vec4_of centerRay 1)
                   (rotate identity (radians (fov * ratio / 2)) v))
      (rotate identity (radians (fov / 2)) (vec3_of uRotateRight)) in
  let r11 :=
    vec_mul_mat
      (vec_mul_mat (vec4_of centerRay 1)
                   (rotate identity (radians (fov * ratio / 2)) v))
      (rotate identity (radians (- fov / 2)) (vec3_of uRotateRight)) in
  {| eyeOut := eye;
     r00 := vec3_of r00; r01 := vec3_of r01;
     r10 := vec3_of r10; r11 := vec3_of r11 |}.

Definition uniform3 (location : Z) (v : vec3) : event :=
  glUniform3f location (x3 v) (y3 v) (z3 v).

Definition calcCameraRays (g : Globals) (eye center up : vec3) (fov ratio : R)
  : list event :=
  let f := cameraRays eye center up fov ratio in
  [ uniform3 (eye_loc g) (eyeOut f);
    uniform3 (ray00 g) (r00 f);
    uniform3 (ray01 g) (r01 f);
    uniform3 (ray10 g) (r10 f);
    uniform3 (ray11 g) (r11 f) ].

(** ** [renderScene] *)

(** The array [test] of [renderScene], as a function of [time]. *)
Definition test (time : R) : list mat4 :=
  [ scale identity (sdiv3 (splat3 (sin time + 6)) 3);
    scale
      (rotate (translate identity (mkvec3 (2 * cos time) 1.5 (2 * sin time)))
              (- time) (mkvec3 0 1 0))
      (splat3 ((1 + sin time) / 2)) ].

(** The array [lights] of [renderScene], as a function of [time]. *)
Definition lights (time : R) : list light :=
  [ {| lcolor := mkvec4 1 1 1 0; radius := 7; brightness := 1;
       pos := mkvec4 (2 * sin time) 4 (2 * cos time) 0 |};
    {| lcolor := mkvec4 1 0 0 0; radius := 2; brightness := 2;
       pos := mkvec4 (4 * cos time) 1 4 0 |} ].

(** The text of the window title. *)
Definition title (fps totalFrame : Z) : string :=
  ("FPS: " ++ to_string fps ++ " Frame: " ++ to_string totalFrame
   ++ " / " ++ to_string maxFrames)%string.

(** [renderScene], with [now] the value [glfwGetTime()] returns. *)
Definition renderScene (now : R) (g : Globals) : Globals * list event :=
  let dtime' := now in
  let totalTime' := dtime' in
  let second_passed := Rlt_dec 1 (dtime' - timebase g) in
  let fps' :=
    if second_passed
    then (tempFrame g ÷ double_to_int (dtime' - timebase g))%Z
    else fps g in
  let timebase' := if second_passed then dtime' else timebase g in
  let tempFrame' := if second_passed then 0%Z else tempFrame g in
  let show_fps :=
    if second_passed
    then [glfwSetWindowTitle (title fps' (totalFrame g))]
    else [] in
  let cameraPos' := mkvec3 0 8 8 in
  let totalTimeElapsedInVideo := IZR (totalFrame g) / IZR videoFPS in
  let totalTimeElapsedInProgram := totalTime' in
  let time := totalTimeElapsedInVideo in
  let g' :=
    {| compToFrag := compToFrag g; lightToFrag := lightToFrag g;
       matrixBuffer := matrixBuffer g; triangleBuffer := triangleBuffer g;
       draw_program := draw_program g;
       transform_program := transform_program g;
       vertex_shader := vertex_shader g;
       fragment_shader := fragment_shader g;
       compute_shader := compute_shader g;
       eye_loc := eye_loc g; ray00 := ray00 g; ray01 := ray01 g;
       ray10 := ray10 g; ray11 := ray11 g;
       cameraPos := cameraPos';
       tempFrame := (tempFrame' + 1)%Z;
       totalFrame := (totalFrame g + 1)%Z;
       dtime := dtime'; timebase := timebase'; totalTime := totalTime';
       fps := fps';
       width := width g; height := height g |} in
  (g',
   show_fps ++
   [ glUseProgram (transform_program g);
     glBindBuffer GL_UNIFORM_BUFFER (matrixBuffer g);
     glBufferData GL_UNIFORM_BUFFER matrixBufferSize (mat4_array (test time))
                  GL_DYNAMIC_DRAW;
     glBindBuffer GL_UNIFORM_BUFFER 0;
     glBindBufferBase GL_SHADER_STORAGE_BUFFER 0 (compToFrag g);
     glBindBufferBase GL_SHADER_STORAGE_BUFFER 1 (triangleBuffer g);
     glBindBufferBase GL_SHADER_STORAGE_BUFFER 2 (matrixBuffer g);
     glDispatchCompute 14 1 1;
     glUseProgram (draw_program g);
     glBindBuffer GL_UNIFORM_BUFFER (lightToFrag g);
     glBufferData GL_UNIFORM_BUFFER lightToFragSize (light_array (lights time))
                  GL_DYNAMIC_DRAW;
     glBindBuffer GL_UNIFORM_BUFFER 0;
     glBindBufferBase GL_SHADER_STORAGE_BUFFER 0 (compToFrag g);
     glBindBufferBase GL_SHADER_STORAGE_BUFFER 1 (lightToFrag g) ] ++
   calcCameraRays g cameraPos' (mkvec3 0 0.5 0) (mkvec3 0 1 0) 45
                  (IZR (width g) / IZR (height g)) ++
   [ glDrawArrays 0 4 ]).

(** ** Shader loading *)

Definition endl : string := String (ascii_of_nat 10) EmptyString.

(** [readShader]: the text of the file, or the empty string and a message
    when the file cannot be read. *)
Definition readShader (env : Env) (fileName : string) : string * list event :=
  match file env fileName with
  | Some shaderCode => (shaderCode, [])
  | None => (EmptyString, [cout ("Can't read file: " ++ fileName ++ endl)])
  end.

(** [createShader]; [k] counts the earlier calls of [glCreateShader].  On a
    compile error the log is printed and the shader deleted; the handle is
    returned in both cases. *)
Definition createShader (env : Env) (k : nat) (sourceCode : string)
           (shaderType : GLenum) : Z * list event :=
  let shader := shader_name env k in
  let created :=
    [ glCreateShader shaderType shader; glShaderSource shader sourceCode ] in
  match compile_log env shaderType sourceCode with
  | None => (shader, created ++ [ glCompileShader shader true ])
  | Some infolog =>
      (shader,
       created ++
       [ glCompileShader shader false;
         cout ("The shader failed to compile with the error:" ++ endl
               ++ infolog ++ endl);
         glDeleteShader shader ])
  end.

(** ** [init] *)

Definition tri (a b c normal color : vec4) : option triangle :=
  Some (mktriangle a b c normal color).

Definition white : vec4 := mkvec4 1 1 1 1.
Definition orange : vec4 := mkvec4 1 0.5 0.1 1.

(** The array [meshes] that [init] fills in: the floor and the cube. *)
Definition session_meshes : list Mesh :=
  [ {| numTriangles := 2;
       triangles :=
         [ tri (mkvec4 (-5) 0 5 1) (mkvec4 (-5) 0 (-5) 1) (mkvec4 5 0 (-5) 1)
               (mkvec4 0 1 0 1) white;
           tri (mkvec4 (-5) 0 5 1) (mkvec4 5 0 (-5) 1) (mkvec4 5 0 5 1)
               (mkvec4 0 1 0 1) white ]
         ++ repeat None 10 |};
    {| numTriangles := 12;
       triangles :=
         [ tri (mkvec4 (-0.5) (-0.5) (-0.5) 1) (mkvec4 0.5 (-0.5) (-0.5) 1)
               (mkvec4 (-0.5) 0.5 (-0.5) 1) (mkvec4 0 0 (-1) 1) orange;
           tri (mkvec4 0.5 (-0.5) (-0.5) 1) (mkvec4 0.5 0.5 (-0.5) 1)
               (mkvec4 (-0.5) 0.5 (-0.5) 1) (mkvec4 0 0 (-1) 1) orange;
           tri (mkvec4 (-0.5) (-0.5) 0.5 1) (mkvec4 (-0.5) 0.5 0.5 1)
               (mkvec4 0.5 0.5 0.5 1) (mkvec4 0 0 1 1) orange;
           tri (mkvec4 (-0.5) (-0.5) 0.5 1) (mkvec4 0.5 0.5 0.5 1)
               (mkvec4 0.5 (-0.5) 0.5 1) (mkvec4 0 0 1 1) orange;
           tri (mkvec4 0.5 (-0.5) 0.5 1) (mkvec4 0.5 0.5 0.5 1)
               (mkvec4 0.5 0.5 (-0.5) 1) (mkvec4 1 0 0 1) orange;
           tri (mkvec4 0.5 (-0.5) 0.5 1) (mkvec4 0.5 0.5 (-0.5) 1)
               (mkvec4 0.5 (-0.5) (-0.5) 1) (mkvec4 1 0 0 1) orange;
           tri (mkvec4 (-0.5) (-0.5) (-0.5) 1) (mkvec4 (-0.5) 0.5 (-0.5) 1)
               (mkvec4 (-0.5) 0.5 0.5 1) (mkvec4 (-1) 0 0 1) orange;
           tri (mkvec4 (-0.5) (-0.5) (-0.5) 1) (mkvec4 (-0.5) 0.5 0.5 1)
               (mkvec4 (-0.5) (-0.5) 0.5 1) (mkvec4 (-1) 0 0 1) orange;
           tri (mkvec4 (-0.5) 0.5 0.5 1) (mkvec4 (-0.5) 0.5 (-0.5) 1)
               (mkvec4 0.5 0.5 (-0.5) 1) (mkvec4 0 1 0 1) orange;
           tri (mkvec4 (-0.5) 0.5 0.5 1) (mkvec4 0.5 0.5 (-0.5) 1)
               (mkvec4 0.5 0.5 0.5 1) (mkvec4 0 1 0 1) orange;
           tri (mkvec4 (-0.5) (-0.5) 0.5 1) (mkvec4 (-0.5) (-0.5) (-0.5) 1)
               (mkvec4 0.5 (-0.5) (-0.5) 1) (mkvec4 0 (-1) 0 1) orange;
           tri (mkvec4 (-0.5) (-0.5) 0.5 1) (mkvec4 0.5 (-0.5) (-0.5) 1)
               (mkvec4 0.5 (-0.5) 0.5 1) (mkvec4 0 (-1) 0 1) orange ] |} ].

(** [init], with the contents of its local array [meshes] as a parameter:
    the statements that create the shaders, programs and buffers do not
    look at what the array holds.  [init] itself is [init_with
    session_meshes]. *)
Definition init_with (meshes : list Mesh) (env : Env) (g : Globals)
  : Globals * list event :=
  let '(vertShader, e1) := readShader env "../Assets/VertexShader.glsl" in
  let '(fragShader, e2) := readShader env "../Assets/FragmentShader.glsl" in
  let '(compShader, e3) := readShader env "../Assets/Compute.glsl" in
  let '(vertex_shader', e4) := createShader env 0 vertShader GL_VERTEX_SHADER in
  let '(fragment_shader', e5) :=
    createShader env 1 fragShader GL_FRAGMENT_SHADER in
  let '(compute_shader', e6) :=
    createShader env 2 compShader GL_COMPUTE_SHADER in
  let draw_program' := program_name env 0 in
  let eye_loc' := uniform_location env draw_program' "eye" in
  let ray00' := uniform_location env draw_program' "ray00" in
  let ray01' := uniform_location env draw_program' "ray01" in
  let ray10' := uniform_location env draw_program' "ray10" in
  let ray11' := uniform_location env draw_program' "ray11" in
  let transform_program' := program_name env 1 in
  let compToFrag' := buffer_name env 0 in
  let matrixBuffer' := buffer_name env 1 in
  let triangleBuffer' := buffer_name env 2 in
  let lightToFrag' := buffer_name env 3 in
  let g' :=
    {| compToFrag := compToFrag'; lightToFrag := lightToFrag';
       matrixBuffer := matrixBuffer'; triangleBuffer := triangleBuffer';
       draw_program := draw_program';
       transform_program := transform_program';
       vertex_shader := vertex_shader';
       fragment_shader := fragment_shader';
       compute_shader := compute_shader';
       eye_loc := eye_loc'; ray00 := ray00'; ray01 := ray01';
       ray10 := ray10'; ray11 := ray11';
       cameraPos := cameraPos g;
       tempFrame := tempFrame g; totalFrame := totalFrame g;
       dtime := dtime g; timebase := timebase g; totalTime := totalTime g;
       fps := fps g;
       width := width g; height := height g |} in
  (g',
   [ glewInit ] ++ e1 ++ e2 ++ e3 ++ e4 ++ e5 ++ e6 ++
   [ glCreateProgram draw_program';
     glAttachShader draw_program' vertex_shader';
     glAttachShader draw_program' fragment_shader';
     glLinkProgram draw_program' (link_ok env draw_program');
     glUseProgram draw_program';
     glCreateProgram transform_program';
     glAttachShader transform_program' compute_shader';
     glLinkProgram transform_program' (link_ok env transform_program');
     glGenBuffers compToFrag';
     glBindBuffer GL_UNIFORM_BUFFER compToFrag';
     glBufferData GL_UNIFORM_BUFFER compToFragSize nullptr GL_STATIC_DRAW;
     glBindBuffer GL_UNIFORM_BUFFER 0;
     glGenBuffers matrixBuffer';
     glBindBuffer GL_UNIFORM_BUFFER matrixBuffer';
     glBufferData GL_UNIFORM_BUFFER matrixBufferSize nullptr GL_DYNAMIC_DRAW;
     glBindBuffer GL_UNIFORM_BUFFER 0;
     glGenBuffers triangleBuffer';
     glBindBuffer GL_UNIFORM_BUFFER triangleBuffer';
     glBufferData GL_UNIFORM_BUFFER triangleBufferSize (Mesh_array meshes)
                  GL_STATIC_DRAW;
     glBindBuffer GL_UNIFORM_BUFFER 0;
     glGenBuffers lightToFrag';
     glBindBuffer GL_UNIFORM_BUFFER lightToFrag';
     glBufferData GL_UNIFORM_BUFFER lightToFrag' nullptr GL_DYNAMIC_DRAW;
     glBindBuffer GL_UNIFORM_BUFFER 0 ]).

Definition init (env : Env) (g : Globals) : Globals * list event :=
  init_with session_meshes env g.

(** ** The window and the capture loop *)

Definition window_size_callback (w h : Z) (g : Globals)
  : Globals * list event :=
  let g' :=
    {| compToFrag := compToFrag g; lightToFrag := lightToFrag g;
       matrixBuffer := matrixBuffer g; triangleBuffer := triangleBuffer g;
       draw_program := draw_program g;
       transform_program := transform_program g;
       vertex_shader := vertex_shader g;
       fragment_shader := fragment_shader g;
       compute_shader := compute_shader g;
       eye_loc := eye_loc g; ray00 := ray00 g; ray01 := ray01 g;
       ray10 := ray10 g; ray11 := ray11 g;
       cameraPos := cameraPos g;
       tempFrame := tempFrame g; totalFrame := totalFrame g;
       dtime := dtime g; timebase := timebase g; totalTime := totalTime g;
       fps := fps g;
       width := w; height := h |} in
  (g', [ glViewport 0 0 (width g') (height g') ]).

(** [glfwPollEvents]: the callback runs once for every size the window
    system reports, in order. *)
Fixpoint poll (sizes : list (Z * Z)) (g : Globals) : Globals * list event :=
  match sizes with
  | [] => (g, [])
  | (w, h) :: rest =>
      let '(g1, e1) := window_size_callback w h g in
      let '(g2, e2) := poll rest g1 in
      (g2, e1 ++ e2)
  end.

Definition fileName (totalFrame : Z) : string :=
  ("exportedFrames/" ++ to_string totalFrame ++ ".png")%string.

(** The body of the [while] loop of [main], in iteration [n]; [pixels] is
    the size of the array allocated before the loop. *)
Definition loop_body (env : Env) (pixels : Z) (n : nat) (g : Globals)
  : Globals * list event :=
  let '(g1, e1) := renderScene (clock env n) g in
  let '(g2, e2) := poll (resizes env n) g1 in
  (g2,
   e1 ++ [ glfwSwapBuffers; glfwPollEvents ] ++ e2 ++
   [ glReadPixels 0 0 (width g2) (height g2) pixels;
     FreeImage_ConvertFromRawBits (width g2) (height g2) (3 * width g2);
     FreeImage_Save (fileName (totalFrame g2));
     FreeImage_Unload ]).

(** [while (totalFrame != maxFrames) { ... }], starting at iteration [n].
    [None] when the fuel runs out before the condition turns false. *)
Fixpoint capture_loop (env : Env) (pixels : Z) (fuel : nat) (n : nat)
         (g : Globals) : option (Globals * list event) :=
  if (totalFrame g =? maxFrames)%Z then Some (g, [])
  else
    match fuel with
    | O => None
    | S fuel' =>
        let '(g1, e1) := loop_body env pixels n g in
        match capture_loop env pixels fuel' (S n) g1 with
        | Some (g2, e2) => Some (g2, e1 ++ e2)
        | None => None
        end
    end.

Definition ffmpeg_command : string :=
  ("ffmpeg -r " ++ to_string videoFPS
   ++ " -start_number 1 -i exportedFrames/%d.png -q 0 test.avi")%string.

(** [main], with the array [meshes] of [init] as a parameter.  The result
    is the final state of the globals and every call made, in order. *)
Definition main_with (meshes : list Mesh) (env : Env) (fuel : nat)
  : option (Globals * list event) :=
  let g0 := initial_globals in
  let '(g1, e_init) := init_with meshes env g0 in
  let pixels := (3 * width g1 * height g1)%Z in
  match capture_loop env pixels fuel 0 g1 with
  | None => None
  | Some (g2, e_loop) =>
      Some (g2,
            [ glfwInit;
              glfwCreateWindow (width g0) (height g0);
              glfwSetWindowSizeCallback;
              glfwMakeContextCurrent;
              glfwSwapInterval 1 ] ++
            e_init ++
            [ CreateDirectoryA "exportedFrames" ] ++
            e_loop ++
            [ glDeleteShader (vertex_shader g2);
              glDeleteShader (fragment_shader g2);
              glDeleteProgram (draw_program g2);
              delete_pixels;
              glfwTerminate;
              system ffmpeg_command ])
  end.

Definition main (env : Env) (fuel : nat) : option (Globals * list event) :=
  main_with session_meshes env fuel.

(** ** Reading a trace *)

(** The files written by [FreeImage_Save], in order. *)
Fixpoint saved_files (tr : list event) : list string :=
  match tr with
  | [] => []
  | FreeImage_Save name :: rest => name :: saved_files rest
  | _ :: rest => saved_files rest
  end.

(** The arguments of the [glReadPixels] calls: width, height and the size
    of the destination array. *)
Fixpoint readbacks (tr : list event) : list (Z * Z * Z) :=
  match tr with
  | [] => []
  | glReadPixels _ _ w h pixels :: rest => (w, h, pixels) :: readbacks rest
  | _ :: rest => readbacks rest
  end.

Fixpoint viewports (tr : list event) : list (Z * Z) :=
  match tr with
  | [] => []
  | glViewport _ _ w h :: rest => (w, h) :: viewports rest
  | _ :: rest => viewports rest
  end.

(** What reaches the console. *)
Fixpoint console (tr : list event) : list string :=
  match tr with
  | [] => []
  | cout s :: rest => s :: console rest
  | _ :: rest => console rest
  end.

(** The vectors set with [glUniform3f], with their locations. *)
Fixpoint uniforms (tr : list event) : list (Z * vec3) :=
  match tr with
  | [] => []
  | glUniform3f l x y z :: rest => (l, mkvec3 x y z) :: uniforms rest
  | _ :: rest => uniforms rest
  end.

(** [glBufferData] writes the buffer bound to its target.  [uploads bound
    tr] lists, for every [glBufferData] on [GL_UNIFORM_BUFFER] in [tr], the
    buffer written, the size and the data, where [bound] is the buffer
    bound to [GL_UNIFORM_BUFFER] when [tr] starts. *)
Fixpoint uploads (bound : Z) (tr : list event) : list (Z * Z * payload) :=
  match tr with
  | [] => []
  | glBindBuffer GL_UNIFORM_BUFFER buffer :: rest => uploads buffer rest
  | glBufferData GL_UNIFORM_BUFFER size data _ :: rest =>
      (bound, size, data) :: uploads bound rest
  | _ :: rest => uploads bound rest
  end.

(** The window titles set. *)
Fixpoint titles (tr : list event) : list string :=
  match tr with
  | [] => []
  | glfwSetWindowTitle s :: rest => s :: titles rest
  | _ :: rest => titles rest
  end.

(** A trace without its window titles. *)
Fixpoint content (tr : list event) : list event :=
  match tr with
  | [] => []
  | glfwSetWindowTitle _ :: rest => content rest
  | e :: rest => e :: content rest
  end.

(** The transform arrays uploaded, in order: one per rendered frame. *)
Fixpoint animated (tr : list event) : list (list mat4) :=
  match tr with
  | [] => []
  | glBufferData _ _ (mat4_array ms) _ :: rest => ms :: animated rest
  | _ :: rest => animated rest
  end.

(** The light arrays uploaded, in order. *)
Fixpoint lit (tr : list event) : list (list light) :=
  match tr with
  | [] => []
  | glBufferData _ _ (light_array ls) _ :: rest => ls :: lit rest
  | _ :: rest => lit rest
  end.

(** Video time of a frame index. *)
Definition videoTime (frameIndex : Z) : R := IZR frameIndex / IZR videoFPS.

(** The calls of [renderScene] other than the window title, for the
    globals at its entry. *)
Definition frame_calls (g : Globals) : list event :=
  [ glUseProgram (transform_program g);
    glBindBuffer GL_UNIFORM_BUFFER (matrixBuffer g);
    glBufferData GL_UNIFORM_BUFFER matrixBufferSize
                 (mat4_array (test (videoTime (totalFrame g))))
                 GL_DYNAMIC_DRAW;
    glBindBuffer GL_UNIFORM_BUFFER 0;
    glBindBufferBase GL_SHADER_STORAGE_BUFFER 0 (compToFrag g);
    glBindBufferBase GL_SHADER_STORAGE_BUFFER 1 (triangleBuffer g);
    glBindBufferBase GL_SHADER_STORAGE_BUFFER 2 (matrixBuffer g);
    glDispatchCompute 14 1 1;
    glUseProgram (draw_program g);
    glBindBuffer GL_UNIFORM_BUFFER (lightToFrag g);
    glBufferData GL_UNIFORM_BUFFER lightToFragSize
                 (light_array (lights (videoTime (totalFrame g))))
                 GL_DYNAMIC_DRAW;
    glBindBuffer GL_UNIFORM_BUFFER 0;
    glBindBufferBase GL_SHADER_STORAGE_BUFFER 0 (compToFrag g);
    glBindBufferBase GL_SHADER_STORAGE_BUFFER 1 (lightToFrag g) ] ++
  calcCameraRays g (mkvec3 0 8 8) (mkvec3 0 0.5 0) (mkvec3 0 1 0) 45
                 (IZR (width g) / IZR (height g)) ++
  [ glDrawArrays 0 4 ].

(** ** Reference geometry

    The transformations the specification names, written directly: they
    are what the GLM calls of the source are compared with. *)

(** Rodrigues' formula for the direction [k] and the cosine [ch] and sine
    [sh] of the angle. *)
Definition rodrigues (k : vec3) (ch sh : R) (p : vec3) : vec3 :=
  add3 (add3 (smul3 ch p) (smul3 sh (cross k p)))
       (smul3 (dot3 k p * (1 - ch)) k).

(** Rotation of the point [p] about the line through the origin along
    [axis] by [theta] radians, counter-clockwise when seen from the tip of
    [axis]. *)
Definition rotate_about (axis : vec3) (theta : R) (p : vec3) : vec3 :=
  rodrigues (normalize axis) (cos theta) (sin theta) p.

(** Uniform scaling by [s], translation by [d] and rotation by [theta]
    about the vertical axis, as matrices. *)
Definition scaling (s : R) : mat4 :=
  mkmat4 (mkvec4 s 0 0 0) (mkvec4 0 s 0 0) (mkvec4 0 0 s 0) (mkvec4 0 0 0 1).

Definition translation (d : vec3) : mat4 :=
  mkmat4 (mkvec4 1 0 0 0) (mkvec4 0 1 0 0) (mkvec4 0 0 1 0)
         (mkvec4 (x3 d) (y3 d) (z3 d) 1).

Definition rotation_y (theta : R) : mat4 :=
  mkmat4 (mkvec4 (cos theta) 0 (- sin theta) 0) (mkvec4 0 1 0 0)
         (mkvec4 (sin theta) 0 (cos theta) 0) (mkvec4 0 0 0 1).

(** A transform applied to a point. *)
Definition apply (m : mat4) (p : vec3) : vec3 :=
  vec3_of (mat_mul_vec m (vec4_of p 1)).

(** The corners of the screen. *)
Inductive half : Type := Left | Right.

Inductive level : Type := Bottom | Top.

(** Half-angles of the view, in degrees. *)
Definition hHalf (fov ratio : R) : R := fov * ratio / 2.

Definition vHalf (fov : R) : R := fov / 2.

(** The signed horizontal angle of a screen half and the signed vertical
    angle of a level, in radians. *)
Definition horizontal (s : half) (fov ratio : R) : R :=
  match s with
  | Left => radians (hHalf fov ratio)
  | Right => - radians (hHalf fov ratio)
  end.

Definition vertical (l : level) (fov : R) : R :=
  match l with
  | Top => radians (vHalf fov)
  | Bottom => - radians (vHalf fov)
  end.

Section Corner.

Variables (eye target up : vec3) (fov ratio : R).

Definition centerRay : vec3 := sub3 target eye.
Definition cam_w : vec3 := neg3 centerRay.
Definition cam_u : vec3 := cross up cam_w.
Definition cam_v : vec3 := cross cam_w cam_u.

(** The right-vector of a screen half: [u] turned about [v]. *)
Definition right_vector (s : half) : vec3 :=
  rotate_about cam_v (horizontal s fov ratio) cam_u.

(** The ray of a corner: [centerRay] turned about [v], then about the
    right-vector of its half. *)
Definition cornerRay (s : half) (l : level) : vec3 :=
  rotate_about (right_vector s) (vertical l fov)
               (rotate_about cam_v (horizontal s fov ratio) centerRay).

End Corner.

(** The session's camera. *)
Definition session_eye : vec3 := mkvec3 0 8 8.
Definition session_target : vec3 := mkvec3 0 0.5 0.
Definition session_up : vec3 := mkvec3 0 1 0.
Definition session_fov : R := 45.

(** The fields of the globals that describe the session to the backend:
    buffer, program and uniform handles and the window size. *)
Definition configuration (g : Globals) :=
  (compToFrag g, lightToFrag g, matrixBuffer g, triangleBuffer g,
   (draw_program g, transform_program g),
   (eye_loc g, ray00 g, ray01 g, ray10 g, ray11 g),
   (width g, height g)).

(** An outside world for examples: every file is readable and every shader
    compiles, handles are numbered from 1, the clock advances by a
    sixtieth of a second per iteration and the window keeps its size. *)
Definition quiet_env : Env :=
  {| file := fun _ => Some "void main() {}"%string;
     shader_name := fun k => Z.of_nat (S k);
     program_name := fun k => Z.of_nat (4 + k);
     buffer_name := fun k => Z.of_nat (S k);
     compile_log := fun _ _ => None;
     link_ok := fun _ => true;
     uniform_location := fun _ name => Z.of_nat (String.length name);
     clock := fun n => INR n / 60;
     resizes := fun _ => [] |}.

(** The programs linked, with the link status. *)
Fixpoint links (tr : list event) : list (Z * bool) :=
  match tr with
  | [] => []
  | glLinkProgram program linked :: rest => (program, linked) :: links rest
  | _ :: rest => links rest
  end.

(** The shaders compiled, with the compile status. *)
Fixpoint compiles (tr : list event) : list (Z * bool) :=
  match tr with
  | [] => []
  | glCompileShader shader isCompiled :: rest =>
      (shader, isCompiled) :: compiles rest
  | _ :: rest => compiles rest
  end.

(** The buffer bound to [GL_UNIFORM_BUFFER] after the trace [tr]. *)
Fixpoint bound_after (bound : Z) (tr : list event) : Z :=
  match tr with
  | [] => bound
  | glBindBuffer GL_UNIFORM_BUFFER buffer :: rest => bound_after buffer rest
  | _ :: rest => bound_after bound rest
  end.

(** [k] iterations of the loop body, from iteration [n] on. *)
Fixpoint iterations (env : Env) (pixels : Z) (k n : nat) (g : Globals)
  : Globals * list event :=
  match k with
  | O => (g, [])
  | S k' =>
      let '(g1, e1) := loop_body env pixels n g in
      let '(g2, e2) := iterations env pixels k' (S n) g1 in
      (g2, e1 ++ e2)
  end.

(** The same outside world with another clock. *)
Definition with_clock (env : Env) (clock' : nat -> R) : Env :=
  {| file := file env; shader_name := shader_name env;
     program_name := program_name env; buffer_name := buffer_name env;
     compile_log := compile_log env; link_ok := link_ok env;
     uniform_location := uniform_location env;
     clock := clock';
     resizes := resizes env |}.

(** An outside world in which no program links. *)
Definition unlinked_env : Env :=
  {| file := file quiet_env; shader_name := shader_name quiet_env;
     program_name := program_name quiet_env;
     buffer_name := buffer_name quiet_env;
     compile_log := compile_log quiet_env;
     link_ok := fun _ => false;
     uniform_location := uniform_location quiet_env;
     clock := clock quiet_env;
     resizes := resizes quiet_env |}.

(** An outside world in which the vertex shader does not compile. *)
Definition broken_shader_env : Env :=
  {| file := file quiet_env; shader_name := shader_name quiet_env;
     program_name := program_name quiet_env;
     buffer_name := buffer_name quiet_env;
     compile_log :=
       fun type _ =>
         match type with
         | GL_VERTEX_SHADER => Some "0(1) : error C0000: syntax error"%string
         | _ => None
         end;
     link_ok := link_ok quiet_env;
     uniform_location := uniform_location quiet_env;
     clock := clock quiet_env;
     resizes := resizes quiet_env |}.

(** An outside world in which the window grows to 1920 x 1080 during the
    first iteration. *)
Definition resized_env : Env :=
  {| file := file quiet_env; shader_name := shader_name quiet_env;
     program_name := program_name quiet_env;
     buffer_name := buffer_name quiet_env;
     compile_log := compile_log quiet_env;
     link_ok := link_ok quiet_env;
     uniform_location := uniform_location quiet_env;
     clock := clock quiet_env;
     resizes := fun n => match n with O => [ (1920, 1080)%Z ] | S _ => [] end |}.

(** The calls of [main] before and after the loop. *)
Definition startup_calls : list event :=
  [ glfwInit; glfwCreateWindow 1280 720; glfwSetWindowSizeCallback;
    glfwMakeContextCurrent; glfwSwapInterval 1 ].

Definition cleanup_calls (g : Globals) : list event :=
  [ glDeleteShader (vertex_shader g); glDeleteShader (fragment_shader g);
    glDeleteProgram (draw_program g); delete_pixels; glfwTerminate;
    system ffmpeg_command ].

(** What a frame uploads: two matrices, then two light records. *)
Definition frame_uploads (g : Globals) (frameIndex : Z)
  : list (Z * Z * payload) :=
  [ (matrixBuffer g, matrixBufferSize, mat4_array (test (videoTime frameIndex)));
    (lightToFrag g, lightToFragSize, light_array (lights (videoTime frameIndex))) ].

(** ** Further readings of a trace *)

(** The shaders and programs deleted, the shaders attached and the
    sources handed to the compiler, in order. *)
Fixpoint deleted_shaders (tr : list event) : list Z :=
  match tr with
  | [] => []
  | glDeleteShader shader :: rest => shader :: deleted_shaders rest
  | _ :: rest => deleted_shaders rest
  end.

Fixpoint deleted_programs (tr : list event) : list Z :=
  match tr with
  | [] => []
  | glDeleteProgram program :: rest => program :: deleted_programs rest
  | _ :: rest => deleted_programs rest
  end.

Fixpoint attached (tr : list event) : list (Z * Z) :=
  match tr with
  | [] => []
  | glAttachShader program shader :: rest => (program, shader) :: attached rest
  | _ :: rest => attached rest
  end.

Fixpoint sources (tr : list event) : list (Z * string) :=
  match tr with
  | [] => []
  | glShaderSource shader code :: rest => (shader, code) :: sources rest
  | _ :: rest => sources rest
  end.

(** The state of the GL context that a dispatch or a draw call reads: the
    program in use and the buffers bound to the indexed binding points 0,
    1 and 2 of [GL_SHADER_STORAGE_BUFFER]. *)
Record bindings : Type := mkbindings {
  program_in_use : Z; slot0 : Z; slot1 : Z; slot2 : Z }.

Definition use_program (program : Z) (s : bindings) : bindings :=
  mkbindings program (slot0 s) (slot1 s) (slot2 s).

Definition bind_base (t : target) (index buffer : Z) (s : bindings)
  : bindings :=
  match t with
  | GL_UNIFORM_BUFFER => s
  | GL_SHADER_STORAGE_BUFFER =>
      if (index =? 0)%Z then
        mkbindings (program_in_use s) buffer (slot1 s) (slot2 s)
      else if (index =? 1)%Z then
        mkbindings (program_in_use s) (slot0 s) buffer (slot2 s)
      else if (index =? 2)%Z then
        mkbindings (program_in_use s) (slot0 s) (slot1 s) buffer
      else s
  end.

(** Work handed to the GPU, with the context it runs in. *)
Inductive work : Type :=
| dispatch (s : bindings) (nx ny nz : Z)
| draw (s : bindings) (first count : Z).

Fixpoint gpu_work (s : bindings) (tr : list event) : list work :=
  match tr with
  | [] => []
  | glUseProgram program :: rest => gpu_work (use_program program s) rest
  | glBindBufferBase t index buffer :: rest =>
      gpu_work (bind_base t index buffer s) rest
  | glDispatchCompute nx ny nz :: rest =>
      dispatch s nx ny nz :: gpu_work s rest
  | glDrawArrays first count :: rest => draw s first count :: gpu_work s rest
  | _ :: rest => gpu_work s rest
  end.

Fixpoint bindings_after (s : bindings) (tr : list event) : bindings :=
  match tr with
  | [] => s
  | glUseProgram program :: rest => bindings_after (use_program program s) rest
  | glBindBufferBase t index buffer :: rest =>
      bindings_after (bind_base t index buffer s) rest
  | _ :: rest => bindings_after s rest
  end.

(** The GPU work of one frame. *)
Definition frame_work (g : Globals) : list work :=
  [ dispatch (mkbindings (transform_program g) (compToFrag g)
                         (triangleBuffer g) (matrixBuffer g)) 14 1 1;
    draw (mkbindings (draw_program g) (compToFrag g) (lightToFrag g)
                     (matrixBuffer g)) 0 4 ].

(** The window size after the events of iterations [n], ..., [n + i],
    starting from the size [s]. *)
Fixpoint size_from (env : Env) (s : Z * Z) (n i : nat) : Z * Z :=
  match i with
  | O => last (resizes env n) s
  | S i' => size_from env (last (resizes env n) s) (S n) i'
  end.

(** What the rendered content of later frames depends on: the frame
    counter, the configuration and the shader handles. *)
Definition scene (g : Globals) :=
  (totalFrame g, configuration g,
   (vertex_shader g, fragment_shader g, compute_shader g)).

(** The uploads that write the buffer [buffer]. *)
Definition writes_to (buffer : Z) (l : list (Z * Z * payload))
  : list (Z * Z * payload) :=
  filter (fun e => (fst (fst e) =? buffer)%Z) l.

(** What a run shows apart from its window titles: the scene it ends
    in and its other calls; [None] when the fuel ran out. *)
Definition outcome (r : option (Globals * list event)) :=
  option_map (fun gt => (scene (fst gt), content (snd gt))) r.

(** The shader files of [init], with the index of the [glCreateShader]
    call and the type of each. *)
Definition shader_files : list (nat * string * GLenum) :=
  [ (0%nat, "../Assets/VertexShader.glsl"%string, GL_VERTEX_SHADER);
    (1%nat, "../Assets/FragmentShader.glsl"%string, GL_FRAGMENT_SHADER);
    (2%nat, "../Assets/Compute.glsl"%string, GL_COMPUTE_SHADER) ].

(** The compile status the backend reports for a source. *)
Definition compiled (env : Env) (type : GLenum) (code : string) : bool :=
  match compile_log env type code with
  | None => true
  | Some _ => false
  end.

(** An outside world without shader files, in which the empty source
    does not compile. *)
Definition unreadable_env : Env :=
  {| file := fun _ => None; shader_name := shader_name quiet_env;
     program_name := program_name quiet_env;
     buffer_name := buffer_name quiet_env;
     compile_log := fun _ _ => Some "error: no main function"%string;
     link_ok := fun _ => false;
     uniform_location := uniform_location quiet_env;
     clock := clock quiet_env;
     resizes := resizes quiet_env |}.

(** The steps that carry a frame from the transforms to the video: the
    compute pass, with the transforms uploaded last before it, the draw
    call, the buffer swap, the readback with the size it asks for, the
    save with its file name, and the muxer with its command line. *)
Inductive stage : Type :=
| transformed (ms : list mat4)
| drawn
| presented
| read_back (w h : Z)
| saved (name : string)
| muxed (command : string).

(** The steps of a trace, in order; [shown] are the transforms uploaded
    before [tr] starts. *)
Fixpoint pipeline (shown : list mat4) (tr : list event) : list stage :=
  match tr with
  | [] => []
  | glBufferData _ _ (mat4_array ms) _ :: rest => pipeline ms rest
  | glDispatchCompute _ _ _ :: rest => transformed shown :: pipeline shown rest
  | glDrawArrays _ _ :: rest => drawn :: pipeline shown rest
  | glfwSwapBuffers :: rest => presented :: pipeline shown rest
  | glReadPixels _ _ w h _ :: rest => read_back w h :: pipeline shown rest
  | FreeImage_Save name :: rest => saved name :: pipeline shown rest
  | system command :: rest => muxed command :: pipeline shown rest
  | _ :: rest => pipeline shown rest
  end.

(** The transforms uploaded last, after [tr]. *)
Fixpoint shown_after (shown : list mat4) (tr : list event) : list mat4 :=
  match tr with
  | [] => shown
  | glBufferData _ _ (mat4_array ms) _ :: rest => shown_after ms rest
  | _ :: rest => shown_after shown rest
  end.

(** The eye and the four corner rays of the session's camera for a window
    size. *)
Definition camera_values (size : Z * Z) : list vec3 :=
  let f :=
    cameraRays (mkvec3 0 8 8) (mkvec3 0 0.5 0) (mkvec3 0 1 0) 45
               (IZR (fst size) / IZR (snd size)) in
  [ eyeOut f; r00 f; r01 f; r10 f; r11 f ].

(** The window size at the entry of iteration [n + i], starting from the
    size [s] at the entry of iteration [n]. *)
Fixpoint size_before (env : Env) (s : Z * Z) (n i : nat) : Z * Z :=
  match i with
  | O => s
  | S i' => size_before env (last (resizes env n) s) (S n) i'
  end.

(** * Properties *)

(** ** Vectors and matrices *)

Lemma vec3_eq (p q : vec3) :
  x3 p = x3 q -> y3 p = y3 q -> z3 p = z3 q -> p = q.
Proof. destruct p, q; simpl; intros; subst; reflexivity. Qed.

Lemma vec4_eq (p q : vec4) :
  x4 p = x4 q -> y4 p = y4 q -> z4 p = z4 q -> w4 p = w4 q -> p = q.
Proof. destruct p, q; simpl; intros; subst; reflexivity. Qed.

Lemma mat4_eq (m n : mat4) :
  c0 m = c0 n -> c1 m = c1 n -> c2 m = c2 n -> c3 m = c3 n -> m = n.
Proof. destruct m, n; simpl; intros; subst; reflexivity. Qed.

Ltac vec_unfold :=
  cbv [dot4 dot3 add4 add3 sub3 neg3 smul4 smul3 sdiv3 cross vec4_of vec3_of
       splat3 mat_mul_vec vec_mul_mat mat_mul identity translate scale
       scaling translation rotation_y apply
       x3 y3 z3 x4 y4 z4 w4 c0 c1 c2 c3].

Ltac vec_ring :=
  vec_unfold;
  repeat first [ apply mat4_eq | apply vec4_eq | apply vec3_eq ];
  vec_unfold; try ring.

Lemma radians_opp (d : R) : radians (- d) = - radians d.
Proof. unfold radians; ring. Qed.

(** A row vector times a GLM rotation matrix is the rotation by the
    opposite angle: the product uses the transposed matrix. *)
Lemma vec_mul_rotate (axis p : vec3) (theta : R) :
  vec_mul_mat (vec4_of p 1) (rotate identity theta axis)
  = vec4_of (rotate_about axis (- theta) p) 1.
Proof.
  unfold rotate, rotate_about, rodrigues.
  generalize (normalize axis); intros k.
  rewrite cos_neg, sin_neg.
  destruct p, k; vec_ring.
Qed.

(** A GLM rotation matrix applied to a column vector is the rotation
    itself. *)
Lemma rotate_mul_vec (axis p : vec3) (theta : R) :
  mat_mul_vec (rotate identity theta axis) (vec4_of p 1)
  = vec4_of (rotate_about axis theta p) 1.
Proof.
  unfold rotate, rotate_about, rodrigues.
  generalize (normalize axis); intros k.
  destruct p, k; vec_ring.
Qed.

Lemma vec3_of_vec4_of (p : vec3) (w : R) : vec3_of (vec4_of p w) = p.
Proof. destruct p; reflexivity. Qed.

Lemma normalize_vertical : normalize (mkvec3 0 1 0) = mkvec3 0 1 0.
Proof.
  unfold normalize, dot3; simpl.
  replace (0 * 0 + 1 * 1 + 0 * 0) with 1 by ring.
  rewrite sqrt_1, Rinv_1.
  vec_ring.
Qed.

(** [glm::rotate] about the vertical axis is the rotation matrix
    [rotation_y]. *)
Lemma rotate_vertical (m : mat4) (theta : R) :
  rotate m theta (mkvec3 0 1 0) = mat_mul m (rotation_y theta).
Proof.
  unfold rotate. rewrite normalize_vertical.
  destruct m as [[] [] [] []]; vec_ring.
Qed.

Lemma translate_mat_mul (m : mat4) (d : vec3) :
  translate m d = mat_mul m (translation d).
Proof. destruct m as [[] [] [] []], d; vec_ring. Qed.

Lemma scale_mat_mul (m : mat4) (s : R) :
  scale m (splat3 s) = mat_mul m (scaling s).
Proof. destruct m as [[] [] [] []]; vec_ring. Qed.

Lemma mat_mul_identity_l (m : mat4) : mat_mul identity m = m.
Proof. destruct m as [[] [] [] []]; vec_ring. Qed.

Lemma rotate_about_vertical (theta : R) (p : vec3) :
  rotate_about (mkvec3 0 1 0) theta p
  = mkvec3 (cos theta * x3 p + sin theta * z3 p) (y3 p)
           (- sin theta * x3 p + cos theta * z3 p).
Proof.
  unfold rotate_about, rodrigues. rewrite normalize_vertical.
  destruct p; vec_ring.
Qed.

(** ** The scene animator *)

Lemma scaling_apply (s : R) (p : vec3) : apply (scaling s) p = smul3 s p.
Proof. destruct p; vec_ring. Qed.

Lemma translation_apply (d p : vec3) : apply (translation d) p = add3 d p.
Proof. destruct d, p; vec_ring. Qed.

Lemma rotation_y_apply (theta : R) (p : vec3) :
  apply (rotation_y theta) p = rotate_about (mkvec3 0 1 0) theta p.
Proof. rewrite rotate_about_vertical. destruct p; vec_ring. Qed.

Lemma rotation_y_0 : rotation_y 0 = identity.
Proof. unfold rotation_y. rewrite cos_0, sin_0. vec_ring. Qed.

(** The cube's transform is translate, rotate, scale, in GLM's order. *)
Lemma cube_transform (t : R) :
  nth 1 (test t) identity
  = mat_mul (mat_mul (translation (mkvec3 (2 * cos t) 1.5 (2 * sin t)))
                     (rotation_y (- t)))
            (scaling ((1 + sin t) / 2)).
Proof.
  simpl.
  rewrite scale_mat_mul, rotate_vertical, translate_mat_mul.
  now rewrite mat_mul_identity_l.
Qed.

(** On a point the product applies the scaling first, the rotation next
    and the translation last. *)
Lemma cube_transform_apply (d : vec3) (theta s : R) (p : vec3) :
  apply (mat_mul (mat_mul (translation d) (rotation_y theta)) (scaling s)) p
  = add3 d (rotate_about (mkvec3 0 1 0) theta (smul3 s p)).
Proof.
  rewrite rotate_about_vertical. destruct d, p; vec_ring.
Qed.

(** C2.  For every video time [t] the animator produces: for the ground
    plane the identity uniformly scaled by [(sin t + 6) / 3]; for the cube
    the product translate [(2 cos t, 1.5, 2 sin t)], rotate by [- t] about
    the vertical axis, scale by [(1 + sin t) / 2], which on a point scales
    first, rotates next and translates last; light 0 white, radius 7,
    brightness 1, at [(2 sin t, 4, 2 cos t)]; light 1 red, radius 2,
    brightness 2, at [(4 cos t, 1, 4)].  At [t = 0] the ground scale is 2,
    the cube is at [(2, 1.5, 0)] with scale 0.5 and rotation angle 0, and
    the lights are at [(0, 4, 2)] and [(4, 1, 4)]. *)
Theorem animate_spec (t : R) :
  let orbit := mkvec3 (2 * cos t) 1.5 (2 * sin t) in
  let cube :=
    mat_mul (mat_mul (translation orbit) (rotation_y (- t)))
            (scaling ((1 + sin t) / 2)) in
  test t = [ scaling ((sin t + 6) / 3); cube ]
  /\ (forall p : vec3,
        apply cube p
        = add3 orbit
               (rotate_about (mkvec3 0 1 0) (- t)
                             (smul3 ((1 + sin t) / 2) p)))
  /\ lights t
     = [ {| pos := mkvec4 (2 * sin t) 4 (2 * cos t) 0;
            lcolor := mkvec4 1 1 1 0; radius := 7; brightness := 1 |};
         {| pos := mkvec4 (4 * cos t) 1 4 0;
            lcolor := mkvec4 1 0 0 0; radius := 2; brightness := 2 |} ]
  /\ test 0
     = [ scaling 2;
         mat_mul (mat_mul (translation (mkvec3 2 1.5 0)) (rotation_y 0))
                 (scaling 0.5) ]
  /\ rotation_y 0 = identity
  /\ map pos (lights 0) = [ mkvec4 0 4 2 0; mkvec4 4 1 4 0 ].
Proof.
  intros orbit cube.
  assert (Hground : forall s, scale identity (sdiv3 (splat3 (s + 6)) 3)
                              = scaling ((s + 6) / 3)).
  { intros s. vec_ring. }
  assert (Htest : forall s, test s
            = [ scaling ((sin s + 6) / 3);
                mat_mul (mat_mul (translation
                                    (mkvec3 (2 * cos s) 1.5 (2 * sin s)))
                                 (rotation_y (- s)))
                        (scaling ((1 + sin s) / 2)) ]).
  { intros s. rewrite <- cube_transform. unfold test at 1.
    rewrite Hground. reflexivity. }
  repeat split.
  - apply Htest.
  - intros p. apply cube_transform_apply.
  - rewrite Htest, Ropp_0, sin_0, cos_0.
    repeat f_equal; lra.
  - apply rotation_y_0.
  - unfold lights; simpl. rewrite sin_0, cos_0.
    repeat f_equal; lra.
Qed.

(** ** The camera-ray generator *)

Lemma radians_left (fov ratio : R) :
  radians (- fov * ratio / 2) = - radians (hHalf fov ratio).
Proof. unfold radians, hHalf; field. Qed.

Lemma radians_top (fov : R) : radians (- fov / 2) = - radians (vHalf fov).
Proof. unfold radians, vHalf; field. Qed.

(** The computation of the source is the one of the reference geometry:
    each matrix product of [calcCameraRays] is a rotation about an axis. *)
Lemma cameraRays_corners (eye target up : vec3) (fov ratio : R) :
  cameraRays eye target up fov ratio
  = {| eyeOut := eye;
       r00 := cornerRay eye target up fov ratio Left Bottom;
       r01 := cornerRay eye target up fov ratio Left Top;
       r10 := cornerRay eye target up fov ratio Right Bottom;
       r11 := cornerRay eye target up fov ratio Right Top |}.
Proof.
  unfold cameraRays, cornerRay, right_vector, horizontal, vertical.
  fold (centerRay eye target). fold (cam_w eye target).
  fold (cam_u eye target up). fold (cam_v eye target up).
  rewrite !vec_mul_rotate, !vec3_of_vec4_of.
  rewrite radians_left, radians_top, !Ropp_involutive.
  fold (hHalf fov ratio). fold (vHalf fov).
  reflexivity.
Qed.

(** *** Where the corner rays point

    With [c] the centre ray, [w = - c], [u = up x w] and [v = w x u], the
    next three identities hold for every direction scale [lam], [mu] and
    every pair [ch], [sh]: they are polynomial identities. *)

Section Orientation.

Variables (up w : vec3) (lam mu ch sh ca sa : R).

Let c := neg3 w.
Let u := cross up w.
Let v := cross w u.
Let p' := rodrigues (smul3 lam v) ch sh c.
Let u' := rodrigues (smul3 lam v) ch sh u.

Lemma corner_dot_v :
  dot3 (rodrigues (smul3 mu u') ca sa p') v
  = sa * mu * dot3 v v * (ch * ch + sh * sh * (lam * lam * dot3 v v)).
Proof.
  subst p' u' v u c. unfold rodrigues. destruct up, w. vec_unfold. ring.
Qed.

Lemma corner_dot_u :
  dot3 (rodrigues (smul3 mu u') ca sa p') u
  = - (ca * sh * lam * dot3 v v).
Proof.
  subst p' u' v u c. unfold rodrigues. destruct up, w. vec_unfold. ring.
Qed.

Lemma turned_right_norm :
  dot3 u' u' = dot3 u u * (ch * ch + sh * sh * (lam * lam * dot3 v v)).
Proof.
  subst p' u' v u c. unfold rodrigues. destruct up, w. vec_unfold. ring.
Qed.

Lemma camera_up_norm : dot3 v v = dot3 w w * dot3 u u.
Proof.
  subst p' u' v u c. destruct up, w. vec_unfold. ring.
Qed.

End Orientation.

Lemma dot3_pos (p : vec3) : p <> mkvec3 0 0 0 -> 0 < dot3 p p.
Proof.
  intros Hp. destruct p as [x y z]. unfold dot3; simpl.
  destruct (Req_dec x 0) as [Hx | Hx];
    [ destruct (Req_dec y 0) as [Hy | Hy];
      [ destruct (Req_dec z 0) as [Hz | Hz] | ] | ].
  - subst. now elim Hp.
  - subst. nra.
  - nra.
  - nra.
Qed.

(** The scale that [glm::normalize] applies, squared, undoes the squared
    length. *)
Lemma inversesqrt_sqr (d : R) : 0 < d -> / sqrt d * / sqrt d * d = 1.
Proof.
  intros Hd.
  assert (Hs : 0 < sqrt d) by now apply sqrt_lt_R0.
  rewrite <- (sqrt_sqrt d) at 3 by lra.
  field. lra.
Qed.


Lemma cos_sin_sqr (x : R) : cos x * cos x + sin x * sin x = 1.
Proof. generalize (sin2_cos2 x). unfold Rsqr. lra. Qed.

Lemma neg3_involutive (p : vec3) : neg3 (neg3 p) = p.
Proof. destruct p; vec_ring. Qed.

Section CornerOrientation.

Variables (eye target up : vec3) (fov ratio : R).

Hypothesis not_parallel : cross up (sub3 target eye) <> mkvec3 0 0 0.

Let w := cam_w eye target.
Let u := cam_u eye target up.
Let v := cam_v eye target up.

Lemma cam_u_pos : 0 < dot3 u u.
Proof.
  apply dot3_pos. intros Hu. apply not_parallel.
  subst u. unfold cam_u, cam_w, centerRay in Hu.
  destruct up as [a1 a2 a3], (sub3 target eye) as [b1 b2 b3].
  unfold cross, neg3 in *; simpl in *.
  injection Hu as H1 H2 H3. f_equal; lra.
Qed.

Lemma cam_w_pos : 0 < dot3 w w.
Proof.
  apply dot3_pos. intros Hw.
  generalize cam_u_pos. subst u. unfold cam_u. fold w. rewrite Hw.
  destruct up. vec_unfold. lra.
Qed.

Lemma cam_v_pos : 0 < dot3 v v.
Proof.
  subst v. unfold cam_v, cam_u. fold w. rewrite camera_up_norm.
  apply Rmult_lt_0_compat; [ apply cam_w_pos | apply cam_u_pos ].
Qed.

Lemma right_vector_pos (s : half) :
  0 < dot3 (right_vector eye target up fov ratio s)
           (right_vector eye target up fov ratio s).
Proof.
  change (right_vector eye target up fov ratio s)
    with (rodrigues (smul3 (/ sqrt (dot3 v v)) (cross w (cross up w)))
                    (cos (horizontal s fov ratio))
                    (sin (horizontal s fov ratio)) (cross up w)).
  rewrite turned_right_norm.
  change (cross w (cross up w)) with v. change (cross up w) with u.
  rewrite (inversesqrt_sqr _ cam_v_pos), Rmult_1_r, cos_sin_sqr, Rmult_1_r.
  apply cam_u_pos.
Qed.



End CornerOrientation.








(** ** Traces *)

(** Every projection of a trace distributes over concatenation. *)
Ltac projection_app t1 :=
  let e := fresh "e" in
  let IH := fresh "IH" in
  induction t1 as [ | e t1 IH ]; simpl; [ reflexivity | ];
  destruct e; simpl; rewrite ?IH; try reflexivity;
  repeat match goal with
         | |- context [ match ?x with _ => _ end ] => destruct x
         end;
  simpl; rewrite ?IH; reflexivity.

Lemma saved_files_app (t1 t2 : list event) :
  saved_files (t1 ++ t2) = saved_files t1 ++ saved_files t2.
Proof. projection_app t1. Qed.

Lemma animated_app (t1 t2 : list event) :
  animated (t1 ++ t2) = animated t1 ++ animated t2.
Proof. projection_app t1. Qed.

Lemma lit_app (t1 t2 : list event) : lit (t1 ++ t2) = lit t1 ++ lit t2.
Proof. projection_app t1. Qed.

Lemma readbacks_app (t1 t2 : list event) :
  readbacks (t1 ++ t2) = readbacks t1 ++ readbacks t2.
Proof. projection_app t1. Qed.

Lemma viewports_app (t1 t2 : list event) :
  viewports (t1 ++ t2) = viewports t1 ++ viewports t2.
Proof. projection_app t1. Qed.

Lemma console_app (t1 t2 : list event) :
  console (t1 ++ t2) = console t1 ++ console t2.
Proof. projection_app t1. Qed.

Lemma uniforms_app (t1 t2 : list event) :
  uniforms (t1 ++ t2) = uniforms t1 ++ uniforms t2.
Proof. projection_app t1. Qed.

Lemma content_app (t1 t2 : list event) :
  content (t1 ++ t2) = content t1 ++ content t2.
Proof. projection_app t1. Qed.

(** ** One frame *)

(** [renderScene] makes the calls of [frame_calls], after the window title
    when a second has passed. *)
Lemma renderScene_calls (now : R) (g : Globals) :
  snd (renderScene now g) = frame_calls g
  \/ exists s, snd (renderScene now g) = glfwSetWindowTitle s :: frame_calls g.
Proof.
  unfold renderScene, frame_calls, videoTime; cbn [snd].
  destruct (Rlt_dec 1 (now - timebase g)).
  - right. eexists. reflexivity.
  - left. reflexivity.
Qed.

(** In the proofs about one frame the values uploaded stay abstract: only
    the shape of the calls matters. *)
Ltac frame_shape :=
  unfold frame_calls, calcCameraRays;
  repeat match goal with
         | |- context [ cameraRays ?e ?c ?u ?f ?r ] =>
             generalize (cameraRays e c u f r); intro
         | |- context [ test ?t ] => generalize (test t); intro
         | |- context [ lights ?t ] => generalize (lights t); intro
         end.

Lemma content_frame_calls (g : Globals) : content (frame_calls g) = frame_calls g.
Proof. frame_shape. reflexivity. Qed.

Lemma content_title (s : string) (tr : list event) :
  content (glfwSetWindowTitle s :: tr) = content tr.
Proof. reflexivity. Qed.

Lemma renderScene_content (now : R) (g : Globals) :
  content (snd (renderScene now g)) = frame_calls g.
Proof.
  destruct (renderScene_calls now g) as [E | [s E]]; rewrite E.
  - apply content_frame_calls.
  - rewrite content_title. apply content_frame_calls.
Qed.

(** A projection that skips window titles sees [renderScene] as
    [frame_calls]. *)
Lemma renderScene_projection (A : Type) (proj : list event -> list A) :
  (forall s tr, proj (glfwSetWindowTitle s :: tr) = proj tr) ->
  forall now g, proj (snd (renderScene now g)) = proj (frame_calls g).
Proof.
  intros Htitle now g.
  destruct (renderScene_calls now g) as [E | [s E]]; rewrite E.
  - reflexivity.
  - apply Htitle.
Qed.

Lemma saved_files_frame_calls (g : Globals) : saved_files (frame_calls g) = [].
Proof. frame_shape. reflexivity. Qed.

Lemma readbacks_frame_calls (g : Globals) : readbacks (frame_calls g) = [].
Proof. frame_shape. reflexivity. Qed.

Lemma viewports_frame_calls (g : Globals) : viewports (frame_calls g) = [].
Proof. frame_shape. reflexivity. Qed.

Lemma console_frame_calls (g : Globals) : console (frame_calls g) = [].
Proof. frame_shape. reflexivity. Qed.

Lemma animated_frame_calls (g : Globals) :
  animated (frame_calls g) = [ test (videoTime (totalFrame g)) ].
Proof. frame_shape. reflexivity. Qed.

Lemma lit_frame_calls (g : Globals) :
  lit (frame_calls g) = [ lights (videoTime (totalFrame g)) ].
Proof. frame_shape. reflexivity. Qed.

Lemma vec3_eta (p : vec3) : mkvec3 (x3 p) (y3 p) (z3 p) = p.
Proof. destruct p; reflexivity. Qed.

Lemma uniforms_frame_calls (g : Globals) :
  let f :=
    cameraRays (mkvec3 0 8 8) (mkvec3 0 0.5 0) (mkvec3 0 1 0) 45
               (IZR (width g) / IZR (height g)) in
  uniforms (frame_calls g)
  = [ (eye_loc g, mkvec3 0 8 8); (ray00 g, r00 f); (ray01 g, r01 f);
      (ray10 g, r10 f); (ray11 g, r11 f) ].
Proof.
  intros f.
  assert (Heye : eyeOut f = mkvec3 0 8 8) by reflexivity.
  unfold frame_calls, calcCameraRays. fold f. clearbody f.
  generalize (test (videoTime (totalFrame g))); intros ms.
  generalize (lights (videoTime (totalFrame g))); intros ls.
  cbn [uniforms app uniform3].
  rewrite !vec3_eta, Heye. reflexivity.
Qed.

Lemma renderScene_saved_files (now : R) (g : Globals) :
  saved_files (snd (renderScene now g)) = [].
Proof.
  rewrite (renderScene_projection _ saved_files) by reflexivity.
  apply saved_files_frame_calls.
Qed.

Lemma renderScene_readbacks (now : R) (g : Globals) :
  readbacks (snd (renderScene now g)) = [].
Proof.
  rewrite (renderScene_projection _ readbacks) by reflexivity.
  apply readbacks_frame_calls.
Qed.

Lemma renderScene_viewports (now : R) (g : Globals) :
  viewports (snd (renderScene now g)) = [].
Proof.
  rewrite (renderScene_projection _ viewports) by reflexivity.
  apply viewports_frame_calls.
Qed.

Lemma renderScene_console (now : R) (g : Globals) :
  console (snd (renderScene now g)) = [].
Proof.
  rewrite (renderScene_projection _ console) by reflexivity.
  apply console_frame_calls.
Qed.

Lemma renderScene_animated (now : R) (g : Globals) :
  animated (snd (renderScene now g)) = [ test (videoTime (totalFrame g)) ].
Proof.
  rewrite (renderScene_projection _ animated) by reflexivity.
  apply animated_frame_calls.
Qed.

Lemma renderScene_lit (now : R) (g : Globals) :
  lit (snd (renderScene now g)) = [ lights (videoTime (totalFrame g)) ].
Proof.
  rewrite (renderScene_projection _ lit) by reflexivity.
  apply lit_frame_calls.
Qed.

Lemma renderScene_uniforms (now : R) (g : Globals) :
  uniforms (snd (renderScene now g)) = uniforms (frame_calls g).
Proof. apply renderScene_projection. reflexivity. Qed.

Lemma renderScene_totalFrame (now : R) (g : Globals) :
  totalFrame (fst (renderScene now g)) = (totalFrame g + 1)%Z.
Proof. reflexivity. Qed.

Lemma renderScene_configuration (now : R) (g : Globals) :
  configuration (fst (renderScene now g)) = configuration g.
Proof. reflexivity. Qed.

Lemma poll_totalFrame (sizes : list (Z * Z)) (g : Globals) :
  totalFrame (fst (poll sizes g)) = totalFrame g.
Proof.
  revert g. induction sizes as [ | [w h] rest IH ]; intros g; [ reflexivity | ].
  cbn [poll window_size_callback].
  destruct (poll rest _) as [g2 e2] eqn:E. cbn [fst].
  change g2 with (fst (g2, e2)). rewrite <- E, IH. reflexivity.
Qed.

(** The only calls [glfwPollEvents] causes are [glViewport]s. *)
Lemma poll_viewports (sizes : list (Z * Z)) (g : Globals) :
  snd (poll sizes g) = map (fun wh => glViewport 0 0 (fst wh) (snd wh)) sizes.
Proof.
  revert g. induction sizes as [ | [w h] rest IH ]; intros g; [ reflexivity | ].
  cbn [poll window_size_callback].
  destruct (poll rest _) as [g2 e2] eqn:E. cbn [snd map fst app].
  f_equal. change e2 with (snd (g2, e2)). rewrite <- E. apply IH.
Qed.

Lemma last_cons_default (A : Type) (x : A) (l : list A) (d d' : A) :
  last (x :: l) d = last (x :: l) d'.
Proof.
  revert x. induction l as [ | y l IH ]; intros x; [ reflexivity | ].
  change (last (y :: l) d = last (y :: l) d'). apply IH.
Qed.

(** After [glfwPollEvents] the window size is the last one reported. *)
Lemma poll_size (sizes : list (Z * Z)) (g : Globals) :
  (width (fst (poll sizes g)), height (fst (poll sizes g)))
  = last sizes (width g, height g).
Proof.
  revert g. induction sizes as [ | [w h] rest IH ]; intros g; [ reflexivity | ].
  cbn [poll window_size_callback].
  destruct (poll rest _) as [g2 e2] eqn:E. cbn [fst].
  change g2 with (fst (g2, e2)). rewrite <- E, IH. cbn [width height].
  destruct rest as [ | p rest ]; [ reflexivity | ].
  change (last ((w, h) :: p :: rest) (width g, height g))
    with (last (p :: rest) (width g, height g)).
  apply last_cons_default.
Qed.

Lemma loop_body_fst (env : Env) (pixels : Z) (n : nat) (g : Globals) :
  fst (loop_body env pixels n g)
  = fst (poll (resizes env n) (fst (renderScene (clock env n) g))).
Proof.
  unfold loop_body.
  destruct (renderScene (clock env n) g) as [g1 e1].
  cbn [fst]. destruct (poll (resizes env n) g1) as [g2 e2]. reflexivity.
Qed.

Lemma loop_body_snd (env : Env) (pixels : Z) (n : nat) (g : Globals) :
  let g2 := fst (loop_body env pixels n g) in
  snd (loop_body env pixels n g)
  = snd (renderScene (clock env n) g) ++
    [ glfwSwapBuffers; glfwPollEvents ] ++
    map (fun wh => glViewport 0 0 (fst wh) (snd wh)) (resizes env n) ++
    [ glReadPixels 0 0 (width g2) (height g2) pixels;
      FreeImage_ConvertFromRawBits (width g2) (height g2) (3 * width g2);
      FreeImage_Save (fileName (totalFrame g2));
      FreeImage_Unload ].
Proof.
  intros g2. subst g2. rewrite loop_body_fst.
  rewrite <- (poll_viewports (resizes env n) (fst (renderScene (clock env n) g))).
  unfold loop_body.
  destruct (renderScene (clock env n) g) as [g1 e1].
  cbn [fst snd]. destruct (poll (resizes env n) g1) as [g2 e2]. reflexivity.
Qed.

(** The frame counter goes up by one in every iteration. *)
Lemma loop_body_totalFrame (env : Env) (pixels : Z) (n : nat) (g : Globals) :
  totalFrame (fst (loop_body env pixels n g)) = (totalFrame g + 1)%Z.
Proof. now rewrite loop_body_fst, poll_totalFrame, renderScene_totalFrame. Qed.

(** ** The capture loop *)

Ltac init_cases :=
  unfold init_with, readShader, createShader;
  repeat match goal with
         | |- context [ file ?e ?n ] => destruct (file e n)
         | |- context [ compile_log ?e ?t ?s ] => destruct (compile_log e t s)
         end.

Lemma init_with_globals (ms : list Mesh) (env : Env) (g : Globals) :
  let g' := fst (init_with ms env g) in
  totalFrame g' = totalFrame g /\ width g' = width g /\ height g' = height g.
Proof. init_cases; repeat split. Qed.

Lemma init_with_saved_files (ms : list Mesh) (env : Env) (g : Globals) :
  saved_files (snd (init_with ms env g)) = [].
Proof. init_cases; reflexivity. Qed.

Lemma init_with_animated (ms : list Mesh) (env : Env) (g : Globals) :
  animated (snd (init_with ms env g)) = [].
Proof. init_cases; reflexivity. Qed.

Lemma saved_files_viewports (sizes : list (Z * Z)) :
  saved_files (map (fun wh => glViewport 0 0 (fst wh) (snd wh)) sizes) = [].
Proof. induction sizes; simpl; auto. Qed.

Lemma animated_viewports (sizes : list (Z * Z)) :
  animated (map (fun wh => glViewport 0 0 (fst wh) (snd wh)) sizes) = [].
Proof. induction sizes; simpl; auto. Qed.

(** One iteration saves one file, named after the counter that
    [renderScene] has already incremented. *)
Lemma loop_body_saved_files (env : Env) (pixels : Z) (n : nat) (g : Globals) :
  saved_files (snd (loop_body env pixels n g))
  = [ fileName (totalFrame g + 1) ].
Proof.
  rewrite loop_body_snd, loop_body_totalFrame.
  rewrite !saved_files_app, saved_files_viewports, renderScene_saved_files.
  reflexivity.
Qed.

(** One iteration renders one frame, at the video time of the counter at
    its entry. *)
Lemma loop_body_animated (env : Env) (pixels : Z) (n : nat) (g : Globals) :
  animated (snd (loop_body env pixels n g))
  = [ test (videoTime (totalFrame g)) ].
Proof.
  rewrite loop_body_snd.
  rewrite !animated_app, animated_viewports, renderScene_animated.
  reflexivity.
Qed.

Lemma capture_loop_done (env : Env) (pixels : Z) (fuel n : nat) (g : Globals) :
  totalFrame g = maxFrames -> capture_loop env pixels fuel n g = Some (g, []).
Proof.
  intros H. destruct fuel; simpl; rewrite H, Z.eqb_refl; reflexivity.
Qed.

Lemma capture_loop_step (env : Env) (pixels : Z) (fuel n : nat) (g : Globals) :
  totalFrame g <> maxFrames ->
  capture_loop env pixels (S fuel) n g
  = match capture_loop env pixels fuel (S n) (fst (loop_body env pixels n g)) with
    | Some (g2, e2) => Some (g2, snd (loop_body env pixels n g) ++ e2)
    | None => None
    end.
Proof.
  intros H. simpl. apply Z.eqb_neq in H. rewrite H.
  destruct (loop_body env pixels n g). reflexivity.
Qed.

(** With [k] frames to go the loop needs [k] iterations: it ends with the
    counter at [maxFrames], having saved and rendered [k] frames. *)
Lemma capture_loop_runs (env : Env) (pixels : Z) (k extra : nat) :
  forall (n : nat) (g : Globals),
    (totalFrame g + Z.of_nat k = maxFrames)%Z ->
    exists g' tr,
      capture_loop env pixels (k + extra) n g = Some (g', tr)
      /\ totalFrame g' = maxFrames
      /\ saved_files tr
         = map (fun i => fileName (totalFrame g + Z.of_nat i)) (seq 1 k)
      /\ animated tr
         = map (fun i => test (videoTime (totalFrame g + Z.of_nat i)))
               (seq 0 k).
Proof.
  induction k as [ | k IH ]; intros n g Hk.
  - exists g, []. rewrite capture_loop_done by lia. repeat split. lia.
  - assert (Hne : totalFrame g <> maxFrames) by lia.
    destruct (IH (S n) (fst (loop_body env pixels n g)))
      as [g' [tr [Hrun [Hend [Hsaved Hanim]]]]].
    { rewrite loop_body_totalFrame. lia. }
    exists g', (snd (loop_body env pixels n g) ++ tr).
    change (S k + extra)%nat with (S (k + extra)).
    rewrite capture_loop_step by exact Hne. rewrite Hrun.
    split; [ reflexivity | ]. split; [ exact Hend | ].
    rewrite saved_files_app, animated_app, Hsaved, Hanim.
    rewrite loop_body_saved_files, loop_body_animated, loop_body_totalFrame.
    split.
    + cbn [seq map app]. f_equal.
      rewrite <- (seq_shift k 1), map_map. apply map_ext. intros i.
      f_equal. lia.
    + cbn [seq map app]. f_equal; [ do 2 f_equal; lia | ].
      rewrite <- (seq_shift k 0), map_map. apply map_ext. intros i.
      do 2 f_equal. lia.
Qed.

(** With fewer iterations than frames to go the loop has not ended. *)
Lemma capture_loop_early (env : Env) (pixels : Z) (fuel : nat) :
  forall (k n : nat) (g : Globals),
    (totalFrame g + Z.of_nat k = maxFrames)%Z ->
    (fuel < k)%nat ->
    capture_loop env pixels fuel n g = None.
Proof.
  induction fuel as [ | fuel IH ]; intros k n g Hk Hlt.
  - simpl. destruct (Z.eqb_spec (totalFrame g) maxFrames); [ lia | reflexivity ].
  - rewrite capture_loop_step by lia.
    rewrite (IH (pred k)); [ reflexivity | | lia ].
    rewrite loop_body_totalFrame. lia.
Qed.

(** *** File names *)

Lemma to_string_inj (y z : Z) : to_string y = to_string z -> y = z.
Proof.
  unfold to_string. intros H.
  apply DecimalZ.to_int_inj.
  apply (f_equal NilEmpty.int_of_string) in H.
  rewrite !NilEmpty.isi in H. now injection H.
Qed.

Lemma length_append (s t : string) :
  String.length (s ++ t) = (String.length s + String.length t)%nat.
Proof. induction s as [ | ch s IH ]; simpl; [ reflexivity | now rewrite IH ]. Qed.

Lemma append_inj_l (p s t : string) : (p ++ s = p ++ t)%string -> s = t.
Proof.
  induction p as [ | ch p IH ]; simpl; intros H; [ exact H | ].
  injection H as H. now apply IH.
Qed.

Lemma append_inj_r (s t q : string) : (s ++ q = t ++ q)%string -> s = t.
Proof.
  revert t. induction s as [ | ch s IH ]; intros [ | ch' t ] H; simpl in H.
  - reflexivity.
  - apply (f_equal String.length) in H. simpl in H.
    rewrite length_append in H. lia.
  - apply (f_equal String.length) in H. simpl in H.
    rewrite length_append in H. lia.
  - injection H as Hc H. subst ch'. f_equal. now apply IH.
Qed.

(** Different counters give different file names. *)
Lemma fileName_inj (y z : Z) : fileName y = fileName z -> y = z.
Proof.
  unfold fileName. intros H.
  apply append_inj_l, append_inj_r in H. now apply to_string_inj.
Qed.

Lemma NoDup_fileNames (start len : nat) :
  NoDup (map (fun i => fileName (Z.of_nat i)) (seq start len)).
Proof.
  apply Injective_map_NoDup; [ | apply seq_NoDup ].
  intros i j H. apply fileName_inj in H. lia.
Qed.

(** *** The whole session *)

Lemma maxFrames_600 : maxFrames = 600%Z.
Proof. reflexivity. Qed.

(** Whatever the outside world does, [main] runs the loop body 600 times:
    it saves the files numbered 1 to 600 and renders the frames at video
    times 0/60 to 599/60, in this order. *)
Lemma main_with_frames (ms : list Mesh) (env : Env) (extra : nat) :
  exists g tr,
    main_with ms env (600 + extra) = Some (g, tr)
    /\ totalFrame g = maxFrames
    /\ saved_files tr = map (fun i => fileName (Z.of_nat i)) (seq 1 600)
    /\ animated tr = map (fun i => test (videoTime (Z.of_nat i))) (seq 0 600).
Proof.
  unfold main_with.
  generalize (init_with_globals ms env initial_globals).
  generalize (init_with_saved_files ms env initial_globals).
  generalize (init_with_animated ms env initial_globals).
  destruct (init_with ms env initial_globals) as [g1 e_init].
  cbn [fst snd]. intros Hanim Hsaved [Hframe [Hw Hh]].
  destruct (capture_loop_runs env (3 * width g1 * height g1) 600 extra 0 g1)
    as [g2 [tr [Hrun [Hend [Hs Ha]]]]].
  { rewrite Hframe. reflexivity. }
  rewrite Hrun. eexists; eexists. split; [ reflexivity | ].
  split; [ exact Hend | ].
  rewrite !saved_files_app, !animated_app, Hsaved, Hanim, Hs, Ha, Hframe.
  split; reflexivity.
Qed.

Lemma main_with_early (ms : list Mesh) (env : Env) (fuel : nat) :
  main_with ms env (Nat.min fuel 599) = None.
Proof.
  unfold main_with.
  generalize (init_with_globals ms env initial_globals).
  destruct (init_with ms env initial_globals) as [g1 e_init].
  cbn [fst]. intros [Hframe _].
  rewrite (capture_loop_early env _ (Nat.min fuel 599) 600 0 g1);
    [ reflexivity | rewrite Hframe; reflexivity | lia ].
Qed.

Lemma videoTime_inj (y z : Z) : videoTime y = videoTime z -> y = z.
Proof.
  unfold videoTime, videoFPS. intros H. apply eq_IZR. lra.
Qed.

Lemma NoDup_videoTimes (start len : nat) :
  NoDup (map (fun i => videoTime (Z.of_nat i)) (seq start len)).
Proof.
  apply Injective_map_NoDup; [ | apply seq_NoDup ].
  intros i j H. apply videoTime_inj in H. lia.
Qed.

(** When [main] returns, its last act was to start the muxer. *)
Lemma main_with_muxer (ms : list Mesh) (env : Env) (fuel : nat)
      (g : Globals) (tr : list event) :
  main_with ms env fuel = Some (g, tr) -> In (system ffmpeg_command) tr.
Proof.
  unfold main_with.
  destruct (init_with ms env initial_globals) as [g1 e_init].
  destruct (capture_loop env _ fuel 0 g1) as [[g2 e_loop] | ]; [ | discriminate ].
  intros H. injection H as _ H. subst tr.
  cbn [app]. do 5 right.
  apply in_or_app; right. right.
  apply in_or_app; right.
  simpl. tauto.
Qed.

(** C1.  With [videoFPS = 60] and [videoSeconds = 10], so [maxFrames =
    600], the session starts with the frame counter at 0; every iteration
    of the loop increments the counter once, saves one image and renders
    one frame, at the video time of the counter at its entry; the loop
    does not end in fewer than 600 iterations and ends after 600, with the
    counter equal to [maxFrames]; the 600 images have pairwise different
    names and the frames rendered are those of the video times 0/60,
    1/60, ..., 599/60, each once and in this order.  This holds for every
    clock, every sequence of window events and every backend outcome. *)
Theorem capture_loop_frame_exact (env : Env) (extra : nat) :
  maxFrames = (videoFPS * videoSeconds)%Z
  /\ maxFrames = 600%Z
  /\ totalFrame initial_globals = 0%Z
  /\ (forall (pixels : Z) (n : nat) (g : Globals),
        totalFrame (fst (loop_body env pixels n g)) = (totalFrame g + 1)%Z
        /\ List.length (saved_files (snd (loop_body env pixels n g))) = 1%nat
        /\ animated (snd (loop_body env pixels n g))
           = [ test (videoTime (totalFrame g)) ])
  /\ (forall fuel : nat, main env (Nat.min fuel 599) = None)
  /\ exists g tr,
       main env (600 + extra) = Some (g, tr)
       /\ totalFrame g = maxFrames
       /\ List.length (saved_files tr) = 600%nat
       /\ NoDup (saved_files tr)
       /\ animated tr = map (fun i => test (videoTime (Z.of_nat i))) (seq 0 600)
       /\ NoDup (map (fun i => videoTime (Z.of_nat i)) (seq 0 600)).
Proof.
  split; [ reflexivity | ]. split; [ reflexivity | ].
  split; [ reflexivity | ]. split; [ | split ].
  - intros pixels n g.
    rewrite loop_body_totalFrame, loop_body_saved_files, loop_body_animated.
    repeat split.
  - intros fuel. apply main_with_early.
  - destruct (main_with_frames session_meshes env extra)
      as [g [tr [Hrun [Hend [Hsaved Hanim]]]]].
    exists g, tr. split; [ exact Hrun | ]. split; [ exact Hend | ].
    rewrite Hsaved. split; [ | split; [ | split ] ].
    + now rewrite length_map, length_seq.
    + apply NoDup_fileNames.
    + exact Hanim.
    + apply NoDup_videoTimes.
Qed.

(** C5, as the code has it.  Every iteration of the capture loop saves its
    image under the name [exportedFrames/<k>.png], where [<k>] is, in
    plain decimal, the zero-based index of the frame just rendered plus
    one: the counter is read after [renderScene] has incremented it.
    With [videoFPS = 60] and [videoSeconds = 10] the files saved are
    numbered exactly 1, 2, ..., 600, in this order, without gap or
    duplicate, and the muxer is started with [-start_number 1]. *)
Theorem exported_file_names (env : Env) (extra : nat) :
  (forall (pixels : Z) (n : nat) (g : Globals),
      animated (snd (loop_body env pixels n g))
      = [ test (videoTime (totalFrame g)) ]
      /\ saved_files (snd (loop_body env pixels n g))
         = [ fileName (totalFrame g + 1) ])
  /\ fileName 1 = "exportedFrames/1.png"%string
  /\ fileName 600 = "exportedFrames/600.png"%string
  /\ exists g tr,
       main env (600 + extra) = Some (g, tr)
       /\ saved_files tr = map (fun i => fileName (Z.of_nat i)) (seq 1 600)
       /\ NoDup (saved_files tr)
       /\ In (system
                "ffmpeg -r 60 -start_number 1 -i exportedFrames/%d.png -q 0 test.avi")
             tr.
Proof.
  split; [ | split; [ reflexivity | split; [ reflexivity | ] ] ].
  - intros pixels n g.
    now rewrite loop_body_saved_files, loop_body_animated.
  - destruct (main_with_frames session_meshes env extra)
      as [g [tr [Hrun [Hend [Hsaved Hanim]]]]].
    exists g, tr. split; [ exact Hrun | ].
    split; [ exact Hsaved | ]. split.
    + rewrite Hsaved. apply NoDup_fileNames.
    + apply (main_with_muxer _ _ _ _ _ Hrun).
Qed.

(** The first image of a session is [exportedFrames/1.png], and no image
    is named after index 0: the names are not the zero-based indices
    0 .. 599. *)
Lemma file_names_not_zero_based :
  exists g tr,
    main quiet_env 600 = Some (g, tr)
    /\ hd_error (saved_files tr) = Some "exportedFrames/1.png"%string
    /\ ~ In (fileName 0) (saved_files tr)
    /\ saved_files tr <> map (fun i => fileName (Z.of_nat i)) (seq 0 600).
Proof.
  destruct (main_with_frames session_meshes quiet_env 0)
    as [g [tr [Hrun [Hend [Hsaved Hanim]]]]].
  exists g, tr. split; [ exact Hrun | ].
  assert (Hnot : ~ In (fileName 0) (saved_files tr)).
  { rewrite Hsaved, in_map_iff. intros [i [Hi Hin]].
    apply fileName_inj in Hi. apply in_seq in Hin. lia. }
  split; [ now rewrite Hsaved | ]. split; [ exact Hnot | ].
  intros H. apply Hnot. rewrite H. left. reflexivity.
Qed.

(** ** Content and program time *)

(** The calls of a frame depend on the globals only through the frame
    counter and the configuration. *)
Lemma frame_calls_ext (g1 g2 : Globals) :
  totalFrame g1 = totalFrame g2 ->
  configuration g1 = configuration g2 ->
  frame_calls g1 = frame_calls g2.
Proof.
  unfold configuration. intros Hf Hc.
  injection Hc as H1 H2 H3 H4 H5 H6 H7 H8 H9 H10 H11 H12 H13.
  unfold frame_calls, calcCameraRays.
  now rewrite Hf, H1, H2, H3, H4, H5, H6, H7, H8, H9, H10, H11, H12, H13.
Qed.

(** C4.  Two runs of [renderScene] from globals with the same frame
    counter and the same configuration make the same calls apart from the
    window title, for every pair of program times: the same transforms,
    those of the video time [totalFrame / videoFPS], the same light
    records, the same eye and corner rays; and they leave the same frame
    counter and configuration behind.  The program time reaches the FPS
    counters and the window title only. *)
Theorem content_independent_of_program_time
        (g1 g2 : Globals) (now1 now2 : R) :
  totalFrame g1 = totalFrame g2 ->
  configuration g1 = configuration g2 ->
  content (snd (renderScene now1 g1)) = content (snd (renderScene now2 g2))
  /\ animated (snd (renderScene now1 g1)) = [ test (videoTime (totalFrame g1)) ]
  /\ animated (snd (renderScene now2 g2)) = [ test (videoTime (totalFrame g1)) ]
  /\ lit (snd (renderScene now1 g1)) = [ lights (videoTime (totalFrame g1)) ]
  /\ lit (snd (renderScene now2 g2)) = [ lights (videoTime (totalFrame g1)) ]
  /\ uniforms (snd (renderScene now1 g1)) = uniforms (snd (renderScene now2 g2))
  /\ totalFrame (fst (renderScene now1 g1))
     = totalFrame (fst (renderScene now2 g2))
  /\ configuration (fst (renderScene now1 g1))
     = configuration (fst (renderScene now2 g2)).
Proof.
  intros Hframe Hconf.
  assert (Hcalls := frame_calls_ext g1 g2 Hframe Hconf).
  rewrite !renderScene_content, !renderScene_animated, !renderScene_lit,
          !renderScene_uniforms, !renderScene_totalFrame,
          !renderScene_configuration.
  rewrite Hcalls, Hframe, Hconf. repeat split.
Qed.

(** Two runs of the first frame, one at program time 0 and one five
    seconds later, when the window title is due. *)
Lemma content_independent_of_program_time_witness :
  content (snd (renderScene 0 initial_globals))
  = content (snd (renderScene 5 initial_globals))
  /\ animated (snd (renderScene 0 initial_globals)) = [ test (videoTime 0) ]
  /\ animated (snd (renderScene 5 initial_globals)) = [ test (videoTime 0) ]
  /\ lit (snd (renderScene 0 initial_globals)) = [ lights (videoTime 0) ]
  /\ lit (snd (renderScene 5 initial_globals)) = [ lights (videoTime 0) ]
  /\ uniforms (snd (renderScene 0 initial_globals))
     = uniforms (snd (renderScene 5 initial_globals))
  /\ totalFrame (fst (renderScene 0 initial_globals))
     = totalFrame (fst (renderScene 5 initial_globals))
  /\ configuration (fst (renderScene 0 initial_globals))
     = configuration (fst (renderScene 5 initial_globals)).
Proof.
  apply (content_independent_of_program_time
           initial_globals initial_globals 0 5); reflexivity.
Defined.

(** The two runs of the witness do differ: only the later one sets the
    window title. *)
Lemma title_depends_on_program_time :
  titles (snd (renderScene 0 initial_globals)) = []
  /\ titles (snd (renderScene 5 initial_globals)) <> [].
Proof.
  unfold renderScene; cbn [snd timebase initial_globals]. split.
  - destruct (Rlt_dec 1 (0 - 0)) as [H | H]; [ lra | reflexivity ].
  - destruct (Rlt_dec 1 (5 - 0)) as [H | H]; [ discriminate | lra ].
Qed.

(** ** The camera of the session *)

(** C10.  In every call of [renderScene], hence in every iteration of the
    loop, the eye and the four corner rays handed to the backend are those
    of [calcCameraRays] for the eye (0, 8, 8), the target (0, 0.5, 0), the
    up vector (0, 1, 0), 45 degrees and the ratio [width / height]; for
    two frames with the same window size the eye and the four rays are
    the same. *)
Theorem camera_inputs_constant (g1 g2 : Globals) (now1 now2 : R) :
  width g1 = width g2 ->
  height g1 = height g2 ->
  let f :=
    cameraRays (mkvec3 0 8 8) (mkvec3 0 0.5 0) (mkvec3 0 1 0) 45
               (IZR (width g1) / IZR (height g1)) in
  uniforms (snd (renderScene now1 g1))
  = [ (eye_loc g1, mkvec3 0 8 8); (ray00 g1, r00 f); (ray01 g1, r01 f);
      (ray10 g1, r10 f); (ray11 g1, r11 f) ]
  /\ (forall (env : Env) (pixels : Z) (n : nat),
        uniforms (snd (loop_body env pixels n g1))
        = [ (eye_loc g1, mkvec3 0 8 8); (ray00 g1, r00 f); (ray01 g1, r01 f);
            (ray10 g1, r10 f); (ray11 g1, r11 f) ])
  /\ map snd (uniforms (snd (renderScene now2 g2)))
     = map snd (uniforms (snd (renderScene now1 g1))).
Proof.
  intros Hw Hh f.
  assert (Huni : forall now g, uniforms (snd (renderScene now g))
                               = uniforms (frame_calls g)).
  { intros. apply renderScene_uniforms. }
  split; [ | split ].
  - rewrite Huni. reflexivity.
  - intros env pixels n. rewrite loop_body_snd, !uniforms_app, Huni.
    assert (Hv : forall l, uniforms (map (fun wh => glViewport 0 0 (fst wh)
                                                               (snd wh)) l) = []).
    { induction l; simpl; auto. }
    rewrite Hv. reflexivity.
  - rewrite !Huni, !uniforms_frame_calls. cbn [map snd].
    rewrite Hw, Hh. reflexivity.
Qed.

(** Two frames of the initial window, at different program times. *)
Lemma camera_inputs_constant_witness :
  let f :=
    cameraRays (mkvec3 0 8 8) (mkvec3 0 0.5 0) (mkvec3 0 1 0) 45
               (IZR 1280 / IZR 720) in
  uniforms (snd (renderScene 0 initial_globals))
  = [ (0%Z, mkvec3 0 8 8); (0%Z, r00 f); (0%Z, r01 f);
      (0%Z, r10 f); (0%Z, r11 f) ]
  /\ (forall (env : Env) (pixels : Z) (n : nat),
        uniforms (snd (loop_body env pixels n initial_globals))
        = [ (0%Z, mkvec3 0 8 8); (0%Z, r00 f); (0%Z, r01 f);
            (0%Z, r10 f); (0%Z, r11 f) ])
  /\ map snd (uniforms (snd (renderScene 5 (fst (renderScene 0 initial_globals)))))
     = map snd (uniforms (snd (renderScene 0 initial_globals))).
Proof.
  apply (camera_inputs_constant
           initial_globals (fst (renderScene 0 initial_globals)) 0 5);
    reflexivity.
Defined.

(** ** The trace of a session *)

Lemma iterations_succ (env : Env) (pixels : Z) (k n : nat) (g : Globals) :
  iterations env pixels (S k) n g
  = (fst (iterations env pixels k (S n) (fst (loop_body env pixels n g))),
     snd (loop_body env pixels n g)
     ++ snd (iterations env pixels k (S n) (fst (loop_body env pixels n g)))).
Proof.
  cbn [iterations]. destruct (loop_body env pixels n g) as [g1 e1].
  cbn [fst snd]. destruct (iterations env pixels k (S n) g1). reflexivity.
Qed.

(** While frames remain the loop is a fixed number of iterations. *)
Lemma capture_loop_iterations (env : Env) (pixels : Z) (k extra : nat) :
  forall (n : nat) (g : Globals),
    (totalFrame g + Z.of_nat k = maxFrames)%Z ->
    capture_loop env pixels (k + extra) n g
    = Some (iterations env pixels k n g).
Proof.
  induction k as [ | k IH ]; intros n g Hk.
  - rewrite capture_loop_done by lia. reflexivity.
  - change (S k + extra)%nat with (S (k + extra)).
    rewrite capture_loop_step by lia.
    rewrite IH by (rewrite loop_body_totalFrame; lia).
    rewrite iterations_succ.
    destruct (iterations env pixels k (S n) (fst (loop_body env pixels n g))).
    reflexivity.
Qed.

(** The trace of a session: start-up, [init], 600 iterations with a pixel
    array of [3 * 1280 * 720] bytes, clean-up. *)
Lemma main_with_trace (ms : list Mesh) (env : Env) (extra : nat) :
  let g1 := fst (init_with ms env initial_globals) in
  let run := iterations env (3 * 1280 * 720) 600 0 g1 in
  main_with ms env (600 + extra)
  = Some (fst run,
          startup_calls ++ snd (init_with ms env initial_globals)
          ++ [ CreateDirectoryA "exportedFrames" ] ++ snd run
          ++ cleanup_calls (fst run)).
Proof.
  intros g1 run. subst run g1. unfold main_with.
  generalize (init_with_globals ms env initial_globals).
  destruct (init_with ms env initial_globals) as [g1 e_init].
  cbn [fst snd]. intros [Hframe [Hw Hh]].
  rewrite capture_loop_iterations by (rewrite Hframe; reflexivity).
  rewrite Hw, Hh. cbn [width height initial_globals].
  destruct (iterations env (3 * 1280 * 720) 600 0 g1) as [g2 e_loop].
  reflexivity.
Qed.

(** ** Window resizes and the pixel array *)

Lemma poll_preserves (A : Type) (field : Globals -> A) :
  (forall w h g, field (fst (window_size_callback w h g)) = field g) ->
  forall sizes g, field (fst (poll sizes g)) = field g.
Proof.
  intros Hcb sizes. induction sizes as [ | [w h] rest IH ]; intros g;
    [ reflexivity | ].
  cbn [poll].
  destruct (window_size_callback w h g) as [g1 e1] eqn:E1.
  destruct (poll rest g1) as [g2 e2] eqn:E2. cbn [fst].
  change g2 with (fst (g2, e2)). rewrite <- E2, IH.
  change g1 with (fst (g1, e1)). rewrite <- E1. apply Hcb.
Qed.

Lemma readbacks_viewports (sizes : list (Z * Z)) :
  readbacks (map (fun wh => glViewport 0 0 (fst wh) (snd wh)) sizes) = [].
Proof. induction sizes; simpl; auto. Qed.

Lemma viewports_map (sizes : list (Z * Z)) :
  viewports (map (fun wh => glViewport 0 0 (fst wh) (snd wh)) sizes) = sizes.
Proof.
  induction sizes as [ | [w h] rest IH ]; simpl; [ reflexivity | ].
  now rewrite IH.
Qed.

Lemma loop_body_size (env : Env) (pixels : Z) (n : nat) (g : Globals) :
  (width (fst (loop_body env pixels n g)),
   height (fst (loop_body env pixels n g)))
  = last (resizes env n) (width g, height g).
Proof. rewrite loop_body_fst, poll_size. reflexivity. Qed.

(** The viewport follows every size the window reports. *)
Lemma loop_body_viewports (env : Env) (pixels : Z) (n : nat) (g : Globals) :
  viewports (snd (loop_body env pixels n g)) = resizes env n.
Proof.
  rewrite loop_body_snd, !viewports_app, viewports_map, renderScene_viewports.
  cbn [viewports app]. apply app_nil_r.
Qed.

(** The readback of an iteration asks for the window size left by the
    events of the same iteration, and writes to the array allocated before
    the loop. *)
Lemma loop_body_readbacks (env : Env) (pixels : Z) (n : nat) (g : Globals) :
  readbacks (snd (loop_body env pixels n g))
  = [ (fst (last (resizes env n) (width g, height g)),
       snd (last (resizes env n) (width g, height g)),
       pixels) ].
Proof.
  rewrite <- (loop_body_size env pixels n g). cbn [fst snd].
  rewrite loop_body_snd, !readbacks_app, readbacks_viewports,
          renderScene_readbacks.
  reflexivity.
Qed.

(** No readback of the loop ever sees another array size. *)
Lemma iterations_readbacks (env : Env) (pixels : Z) (k : nat) :
  forall (n : nat) (g : Globals),
    Forall (fun r => snd r = pixels)
           (readbacks (snd (iterations env pixels k n g))).
Proof.
  induction k as [ | k IH ]; intros n g; [ constructor | ].
  rewrite iterations_succ. cbn [snd].
  rewrite readbacks_app, loop_body_readbacks.
  constructor; [ reflexivity | apply IH ].
Qed.

Lemma init_with_readbacks (ms : list Mesh) (env : Env) (g : Globals) :
  readbacks (snd (init_with ms env g)) = [].
Proof. init_cases; reflexivity. Qed.

Lemma init_with_viewports (ms : list Mesh) (env : Env) (g : Globals) :
  viewports (snd (init_with ms env g)) = [].
Proof. init_cases; reflexivity. Qed.

Lemma readbacks_cleanup (g : Globals) : readbacks (cleanup_calls g) = [].
Proof. reflexivity. Qed.

Lemma viewports_cleanup (g : Globals) : viewports (cleanup_calls g) = [].
Proof. reflexivity. Qed.

(** The readbacks and viewport changes of a session are those of its 600
    iterations. *)
Lemma main_with_readbacks (ms : list Mesh) (env : Env) (extra : nat) :
  exists g tr,
    main_with ms env (600 + extra) = Some (g, tr)
    /\ readbacks tr
       = readbacks (snd (iterations env (3 * 1280 * 720) 600 0
                                    (fst (init_with ms env initial_globals))))
    /\ viewports tr
       = viewports (snd (iterations env (3 * 1280 * 720) 600 0
                                    (fst (init_with ms env initial_globals)))).
Proof.
  eexists; eexists. split; [ apply main_with_trace | ].
  rewrite !readbacks_app, !viewports_app.
  rewrite init_with_readbacks, init_with_viewports.
  rewrite readbacks_cleanup, viewports_cleanup, !app_nil_r.
  split; reflexivity.
Qed.

Lemma iterations_first_readback (env : Env) (pixels : Z) (k n : nat)
      (g : Globals) :
  hd_error (readbacks (snd (iterations env pixels (S k) n g)))
  = Some (fst (last (resizes env n) (width g, height g)),
          snd (last (resizes env n) (width g, height g)),
          pixels).
Proof.
  rewrite iterations_succ. cbn [snd].
  rewrite readbacks_app, loop_body_readbacks. reflexivity.
Qed.

Lemma iterations_first_viewports (env : Env) (pixels : Z) (k n : nat)
      (g : Globals) :
  viewports (snd (iterations env pixels (S k) n g))
  = resizes env n
    ++ viewports (snd (iterations env pixels k (S n)
                                  (fst (loop_body env pixels n g)))).
Proof.
  rewrite iterations_succ. cbn [snd].
  rewrite viewports_app, loop_body_viewports. reflexivity.
Qed.

(** C8, at a failing input.  The window grows from 1280 x 720 to
    1920 x 1080 during the first iteration.  The viewport follows, and the
    readback of that same iteration asks for 1920 x 1080 pixels, 6220800
    bytes, but writes to the array of 2764800 bytes allocated for
    1280 x 720: the array is never resized, in this or any later
    iteration. *)
Theorem resize_keeps_old_pixel_array :
  exists g tr,
    main resized_env 600 = Some (g, tr)
    /\ hd_error (viewports tr) = Some (1920, 1080)%Z
    /\ hd_error (readbacks tr) = Some (1920, 1080, 2764800)%Z
    /\ (2764800 < 3 * 1920 * 1080)%Z
    /\ Forall (fun r => snd r = (3 * 1280 * 720)%Z) (readbacks tr).
Proof.
  destruct (main_with_readbacks session_meshes resized_env 0)
    as [g [tr [Hrun [Hread Hview]]]].
  exists g, tr. split; [ exact Hrun | ].
  rewrite Hread, Hview.
  generalize (fst (init_with session_meshes resized_env initial_globals)).
  intros g1.
  split; [ | split; [ | split ] ].
  - change 600%nat with (S 599). rewrite iterations_first_viewports.
    reflexivity.
  - change 600%nat with (S 599). rewrite iterations_first_readback.
    reflexivity.
  - reflexivity.
  - apply iterations_readbacks.
Qed.


(** ** Buffers *)

Lemma uploads_app (t1 t2 : list event) :
  forall bound,
    uploads bound (t1 ++ t2)
    = uploads bound t1 ++ uploads (bound_after bound t1) t2.
Proof.
  induction t1 as [ | e t1 IH ]; intros bound; [ reflexivity | ].
  destruct e; cbn [app uploads bound_after]; try apply IH;
    match goal with t : target |- _ => destruct t end;
    cbn [app]; rewrite ?IH; reflexivity.
Qed.

Lemma bound_after_app (t1 t2 : list event) :
  forall bound,
    bound_after bound (t1 ++ t2) = bound_after (bound_after bound t1) t2.
Proof.
  induction t1 as [ | e t1 IH ]; intros bound; [ reflexivity | ].
  destruct e; cbn [app bound_after]; try apply IH.
  match goal with t : target |- _ => destruct t end; apply IH.
Qed.

(** What [init] allocates: the buffer of transformed triangles, the
    transform buffer and the mesh buffer with the sizes declared for them,
    and the light buffer with a size equal to its own handle. *)
Lemma init_with_uploads (ms : list Mesh) (env : Env) (g : Globals)
      (bound : Z) :
  uploads bound (snd (init_with ms env g))
  = [ (buffer_name env 0, compToFragSize, nullptr);
      (buffer_name env 1, matrixBufferSize, nullptr);
      (buffer_name env 2, triangleBufferSize, Mesh_array ms);
      (buffer_name env 3, buffer_name env 3, nullptr) ].
Proof. init_cases; reflexivity. Qed.

Lemma init_with_bound_after (ms : list Mesh) (env : Env) (g : Globals)
      (bound : Z) :
  bound_after bound (snd (init_with ms env g)) = 0%Z.
Proof. init_cases; reflexivity. Qed.

Lemma init_with_buffers (ms : list Mesh) (env : Env) (g : Globals) :
  let g' := fst (init_with ms env g) in
  compToFrag g' = buffer_name env 0
  /\ matrixBuffer g' = buffer_name env 1
  /\ triangleBuffer g' = buffer_name env 2
  /\ lightToFrag g' = buffer_name env 3.
Proof. init_cases; repeat split. Qed.

Lemma uploads_frame_calls (g : Globals) (bound : Z) :
  uploads bound (frame_calls g) = frame_uploads g (totalFrame g).
Proof. unfold frame_uploads. frame_shape. reflexivity. Qed.

Lemma bound_after_frame_calls (g : Globals) (bound : Z) :
  bound_after bound (frame_calls g) = 0%Z.
Proof. frame_shape. reflexivity. Qed.

Lemma renderScene_uploads (now : R) (g : Globals) (bound : Z) :
  uploads bound (snd (renderScene now g)) = frame_uploads g (totalFrame g).
Proof.
  rewrite (renderScene_projection _ (uploads bound)) by reflexivity.
  apply uploads_frame_calls.
Qed.

Lemma renderScene_bound_after (now : R) (g : Globals) (bound : Z) :
  bound_after bound (snd (renderScene now g)) = 0%Z.
Proof.
  destruct (renderScene_calls now g) as [E | [s E]]; rewrite E.
  - apply bound_after_frame_calls.
  - change (bound_after bound (glfwSetWindowTitle s :: ?tr))
      with (bound_after bound tr).
    apply bound_after_frame_calls.
Qed.


Lemma uploads_viewports (sizes : list (Z * Z)) (bound : Z) :
  uploads bound (map (fun wh => glViewport 0 0 (fst wh) (snd wh)) sizes) = [].
Proof. induction sizes; simpl; auto. Qed.

Lemma bound_after_viewports (sizes : list (Z * Z)) (bound : Z) :
  bound_after bound (map (fun wh => glViewport 0 0 (fst wh) (snd wh)) sizes)
  = bound.
Proof. induction sizes; simpl; auto. Qed.

(** An iteration uploads the transforms and the lights of its frame and
    nothing else, and leaves no buffer bound. *)
Lemma loop_body_uploads (env : Env) (pixels : Z) (n : nat) (g : Globals)
      (bound : Z) :
  uploads bound (snd (loop_body env pixels n g))
  = frame_uploads g (totalFrame g).
Proof.
  rewrite loop_body_snd, !uploads_app, renderScene_uploads,
          uploads_viewports.
  cbn [uploads app]. apply app_nil_r.
Qed.

Lemma loop_body_bound_after (env : Env) (pixels : Z) (n : nat) (g : Globals)
      (bound : Z) :
  bound_after bound (snd (loop_body env pixels n g)) = 0%Z.
Proof.
  rewrite loop_body_snd, !bound_after_app, renderScene_bound_after,
          bound_after_viewports.
  reflexivity.
Qed.

(** The loop leaves the handles set by [init] alone. *)
Lemma loop_body_buffers (env : Env) (pixels : Z) (n : nat) (g : Globals) :
  matrixBuffer (fst (loop_body env pixels n g)) = matrixBuffer g
  /\ lightToFrag (fst (loop_body env pixels n g)) = lightToFrag g.
Proof.
  rewrite loop_body_fst.
  rewrite (poll_preserves _ matrixBuffer), (poll_preserves _ lightToFrag)
    by reflexivity.
  split; reflexivity.
Qed.

Lemma frame_uploads_ext (g1 g2 : Globals) (frameIndex : Z) :
  matrixBuffer g1 = matrixBuffer g2 ->
  lightToFrag g1 = lightToFrag g2 ->
  frame_uploads g1 frameIndex = frame_uploads g2 frameIndex.
Proof. unfold frame_uploads. now intros -> ->. Qed.

Lemma flat_map_map (A B C : Type) (f : B -> list C) (h : A -> B)
      (l : list A) :
  flat_map f (map h l) = flat_map (fun x => f (h x)) l.
Proof. induction l as [ | x l IH ]; simpl; [ reflexivity | now rewrite IH ]. Qed.

Lemma iterations_uploads (env : Env) (pixels : Z) (k : nat) :
  forall (n : nat) (g : Globals) (bound : Z),
    uploads bound (snd (iterations env pixels k n g))
    = flat_map (fun i => frame_uploads g (totalFrame g + Z.of_nat i))
               (seq 0 k).
Proof.
  induction k as [ | k IH ]; intros n g bound; [ reflexivity | ].
  rewrite iterations_succ. cbn [snd].
  rewrite uploads_app, loop_body_uploads, IH, loop_body_totalFrame.
  destruct (loop_body_buffers env pixels n g) as [Hm Hl].
  cbn [seq flat_map]. rewrite Z.add_0_r. f_equal.
  rewrite <- (seq_shift k 0), flat_map_map.
  apply flat_map_ext. intros i.
  rewrite (frame_uploads_ext _ g) by assumption.
  f_equal. lia.
Qed.

Lemma uploads_cleanup (g : Globals) (bound : Z) :
  uploads bound (cleanup_calls g) = [].
Proof. reflexivity. Qed.

(** Every [glBufferData] of a session: the four allocations of [init],
    then for each of the 600 frames the two matrices and the two light
    records of its video time. *)
Lemma main_with_uploads (ms : list Mesh) (env : Env) (extra : nat) :
  exists g tr,
    main_with ms env (600 + extra) = Some (g, tr)
    /\ uploads 0 tr
       = [ (buffer_name env 0, compToFragSize, nullptr);
           (buffer_name env 1, matrixBufferSize, nullptr);
           (buffer_name env 2, triangleBufferSize, Mesh_array ms);
           (buffer_name env 3, buffer_name env 3, nullptr) ]
         ++ flat_map
              (fun i =>
                 [ (buffer_name env 1, matrixBufferSize,
                    mat4_array (test (videoTime (Z.of_nat i))));
                   (buffer_name env 3, lightToFragSize,
                    light_array (lights (videoTime (Z.of_nat i)))) ])
              (seq 0 600).
Proof.
  eexists; eexists. split; [ apply main_with_trace | ].
  rewrite !uploads_app, init_with_uploads, iterations_uploads, uploads_cleanup.
  change (uploads 0 startup_calls) with (@nil (Z * Z * payload)).
  cbn [app]. rewrite app_nil_r.
  change (uploads ?b [CreateDirectoryA "exportedFrames"])
    with (@nil (Z * Z * payload)).
  cbn [app]. do 4 f_equal.
  destruct (init_with_buffers ms env initial_globals) as [_ [Hm [_ Hl]]].
  destruct (init_with_globals ms env initial_globals) as [Hf _].
  apply flat_map_ext. intros i.
  unfold frame_uploads. rewrite Hm, Hl, Hf. reflexivity.
Qed.


(** ** The console and the link status *)

Lemma links_app (t1 t2 : list event) :
  links (t1 ++ t2) = links t1 ++ links t2.
Proof. projection_app t1. Qed.

Lemma compiles_app (t1 t2 : list event) :
  compiles (t1 ++ t2) = compiles t1 ++ compiles t2.
Proof. projection_app t1. Qed.

Lemma console_viewports (sizes : list (Z * Z)) :
  console (map (fun wh => glViewport 0 0 (fst wh) (snd wh)) sizes) = [].
Proof. induction sizes; simpl; auto. Qed.

Lemma links_viewports (sizes : list (Z * Z)) :
  links (map (fun wh => glViewport 0 0 (fst wh) (snd wh)) sizes) = [].
Proof. induction sizes; simpl; auto. Qed.

Lemma links_frame_calls (g : Globals) : links (frame_calls g) = [].
Proof. frame_shape. reflexivity. Qed.

Lemma renderScene_links (now : R) (g : Globals) :
  links (snd (renderScene now g)) = [].
Proof.
  rewrite (renderScene_projection _ links) by reflexivity.
  apply links_frame_calls.
Qed.

Lemma loop_body_console (env : Env) (pixels : Z) (n : nat) (g : Globals) :
  console (snd (loop_body env pixels n g)) = [].
Proof.
  rewrite loop_body_snd, !console_app, renderScene_console, console_viewports.
  reflexivity.
Qed.

Lemma loop_body_links (env : Env) (pixels : Z) (n : nat) (g : Globals) :
  links (snd (loop_body env pixels n g)) = [].
Proof.
  rewrite loop_body_snd, !links_app, renderScene_links, links_viewports.
  reflexivity.
Qed.

(** The loop prints nothing and links nothing. *)
Lemma iterations_console (env : Env) (pixels : Z) (k : nat) :
  forall (n : nat) (g : Globals),
    console (snd (iterations env pixels k n g)) = [].
Proof.
  induction k as [ | k IH ]; intros n g; [ reflexivity | ].
  rewrite iterations_succ. cbn [snd].
  now rewrite console_app, loop_body_console, IH.
Qed.

Lemma iterations_links (env : Env) (pixels : Z) (k : nat) :
  forall (n : nat) (g : Globals),
    links (snd (iterations env pixels k n g)) = [].
Proof.
  induction k as [ | k IH ]; intros n g; [ reflexivity | ].
  rewrite iterations_succ. cbn [snd].
  now rewrite links_app, loop_body_links, IH.
Qed.

(** [init] links the draw program and the transform program, and records
    whatever status the backend reports. *)
Lemma init_with_links (ms : list Mesh) (env : Env) (g : Globals) :
  links (snd (init_with ms env g))
  = [ (program_name env 0, link_ok env (program_name env 0));
      (program_name env 1, link_ok env (program_name env 1)) ].
Proof. init_cases; reflexivity. Qed.

(** With readable files and shaders that compile, [init] prints nothing. *)
Lemma init_with_console_quiet (ms : list Mesh) (env : Env) (g : Globals) :
  (forall name, file env name <> None) ->
  (forall type code, compile_log env type code = None) ->
  console (snd (init_with ms env g)) = [].
Proof.
  intros Hfile Hcompile. unfold init_with, readShader, createShader.
  repeat match goal with
         | |- context [ file ?e ?n ] =>
             let H := fresh in
             destruct (file e n) eqn:H; [ | now apply Hfile in H ]
         end.
  rewrite !Hcompile. reflexivity.
Qed.

(** The console, the links and the saved files of a session. *)
Lemma main_with_summary (ms : list Mesh) (env : Env) (extra : nat) :
  exists g tr,
    main_with ms env (600 + extra) = Some (g, tr)
    /\ console tr = console (snd (init_with ms env initial_globals))
    /\ links tr
       = [ (program_name env 0, link_ok env (program_name env 0));
           (program_name env 1, link_ok env (program_name env 1)) ]
    /\ saved_files tr = map (fun i => fileName (Z.of_nat i)) (seq 1 600).
Proof.
  assert (Htrace := main_with_trace ms env extra). cbv zeta in Htrace.
  destruct (main_with_frames ms env extra)
    as [g [tr [Hrun [_ [Hsaved _]]]]].
  exists g, tr. split; [ exact Hrun | ].
  rewrite Hrun in Htrace.
  assert (Htr : tr = snd (fst (iterations env (3 * 1280 * 720) 600 0
                                  (fst (init_with ms env initial_globals))),
                          startup_calls
                          ++ snd (init_with ms env initial_globals)
                          ++ [CreateDirectoryA "exportedFrames"]
                          ++ snd (iterations env (3 * 1280 * 720) 600 0
                                    (fst (init_with ms env initial_globals)))
                          ++ cleanup_calls
                               (fst (iterations env (3 * 1280 * 720) 600 0
                                       (fst (init_with ms env initial_globals))))))
    by (injection Htrace as _ Htr; exact Htr).
  cbn [snd] in Htr.
  split; [ | split; [ | exact Hsaved ] ]; rewrite Htr.
  - rewrite !console_app, iterations_console.
    change (console startup_calls) with (@nil string).
    change (console (cleanup_calls ?x)) with (@nil string).
    cbn [app console]. now rewrite app_nil_r.
  - rewrite !links_app, iterations_links, init_with_links. reflexivity.
Qed.


(** ** Shader and program failures *)

(** C7, as the code has it.  When a shader does not compile,
    [createShader] prints the backend's log after the line "The shader
    failed to compile with the error:" and deletes the shader.  The link
    status of a program is never read: with shaders that compile, a
    session whose programs do or do not link prints nothing about it and
    goes on to export its 600 frames. *)
Theorem shader_failure_handling (env : Env) (extra : nat) :
  (forall (k : nat) (type : GLenum) (code infolog : string),
      compile_log env type code = Some infolog ->
      console (snd (createShader env k code type))
      = [ ("The shader failed to compile with the error:" ++ endl
           ++ infolog ++ endl)%string ]
      /\ compiles (snd (createShader env k code type))
         = [ (shader_name env k, false) ]
      /\ In (glDeleteShader (shader_name env k))
            (snd (createShader env k code type)))
  /\ ((forall name, file env name <> None) ->
      (forall type code, compile_log env type code = None) ->
      exists g tr,
        main env (600 + extra) = Some (g, tr)
        /\ links tr
           = [ (program_name env 0, link_ok env (program_name env 0));
               (program_name env 1, link_ok env (program_name env 1)) ]
        /\ console tr = []
        /\ List.length (saved_files tr) = 600%nat).
Proof.
  split.
  - intros k type code infolog Hlog. unfold createShader. rewrite Hlog.
    cbn [snd app console compiles]. repeat split.
    cbn [In]. do 4 right. left. reflexivity.
  - intros Hfile Hcompile.
    destruct (main_with_summary session_meshes env extra)
      as [g [tr [Hrun [Hcon [Hlinks Hsaved]]]]].
    exists g, tr. split; [ exact Hrun | ]. split; [ exact Hlinks | ].
    split.
    + rewrite Hcon. now apply init_with_console_quiet.
    + now rewrite Hsaved, length_map, length_seq.
Qed.

(** A vertex shader that does not compile, and a session in which no
    program links. *)
Lemma shader_failure_handling_witness :
  (console (snd (createShader broken_shader_env 0 "void main() {}"
                              GL_VERTEX_SHADER))
   = [ ("The shader failed to compile with the error:" ++ endl
        ++ "0(1) : error C0000: syntax error" ++ endl)%string ]
   /\ compiles (snd (createShader broken_shader_env 0 "void main() {}"
                                  GL_VERTEX_SHADER))
      = [ (1%Z, false) ]
   /\ In (glDeleteShader 1)
         (snd (createShader broken_shader_env 0 "void main() {}"
                            GL_VERTEX_SHADER)))
  /\ exists g tr,
       main unlinked_env (600 + 0) = Some (g, tr)
       /\ links tr = [ (4%Z, false); (5%Z, false) ]
       /\ console tr = []
       /\ List.length (saved_files tr) = 600%nat.
Proof.
  split.
  - apply (proj1 (shader_failure_handling broken_shader_env 0) 0%nat
                 GL_VERTEX_SHADER "void main() {}"%string
                 "0(1) : error C0000: syntax error"%string).
    reflexivity.
  - apply (proj2 (shader_failure_handling unlinked_env 0)).
    + intros name. discriminate.
    + reflexivity.
Defined.

(** Neither program links, and the session still exports its 600 frames
    without a word on the console. *)
Lemma link_failure_proceeds :
  exists g tr,
    main unlinked_env 600 = Some (g, tr)
    /\ links tr = [ (4%Z, false); (5%Z, false) ]
    /\ console tr = []
    /\ List.length (saved_files tr) = 600%nat.
Proof.
  destruct (main_with_summary session_meshes unlinked_env 0)
    as [g [tr [Hrun [Hcon [Hlinks Hsaved]]]]].
  exists g, tr. split; [ exact Hrun | ]. split; [ exact Hlinks | ].
  split.
  - rewrite Hcon. apply init_with_console_quiet; [ | reflexivity ].
    intros name. discriminate.
  - now rewrite Hsaved, length_map, length_seq.
Qed.

(** ** The light buffer *)

(** C9, at a failing input.  With buffer handles numbered from 1, [init]
    allocates 1120 bytes for the transformed triangles, 128 for the two
    matrices and 1952 for the two meshes, but 4 bytes for the light
    buffer, whose handle is 4: the size passed is the handle
    [lightToFrag], not [lightToFragSize], the 96 bytes of two light
    records. *)
Theorem light_buffer_sized_by_its_handle :
  uploads 0 (snd (init quiet_env initial_globals))
  = [ (1, 1120, nullptr); (2, 128, nullptr);
      (3, 1952, Mesh_array session_meshes); (4, 4, nullptr) ]%Z
  /\ lightToFragSize = 96%Z
  /\ lightToFragSize = (2 * sizeof_light)%Z
  /\ forall (ms : list Mesh) (env : Env) (g : Globals),
       In (buffer_name env 3, buffer_name env 3, nullptr)
          (uploads 0 (snd (init_with ms env g))).
Proof.
  split; [ | split; [ reflexivity | split; [ reflexivity | ] ] ].
  - unfold init. rewrite init_with_uploads. reflexivity.
  - intros ms env g. rewrite init_with_uploads. do 3 right. left. reflexivity.
Qed.


(** * Further properties of the code *)

(** ** The FPS counter *)

(** Truncation of a number above 1 is at least 1 and brackets it. *)
Lemma double_to_int_above_one (x : R) :
  1 < x ->
  (1 <= double_to_int x)%Z
  /\ IZR (double_to_int x) <= x < IZR (double_to_int x) + 1.
Proof.
  intros Hx. unfold double_to_int.
  destruct (Rlt_dec x 0) as [Hneg | _]; [ lra | ].
  unfold Int_part. destruct (archimed x) as [Hup Hlow].
  rewrite minus_IZR.
  assert (H1 : (1 < up x)%Z) by (apply lt_IZR; lra).
  split; [ lia | lra ].
Qed.

Lemma quot_bounds (n d : Z) :
  (0 <= n)%Z -> (1 <= d)%Z -> (0 <= n ÷ d <= n)%Z.
Proof.
  intros Hn Hd. split.
  - apply Z.quot_pos; lia.
  - destruct (Z.eq_dec n 0) as [E | E].
    + rewrite E, Z.quot_0_l; lia.
    + destruct (Z.eq_dec d 1) as [E1 | E1].
      * rewrite E1, Z.quot_1_r. lia.
      * apply Z.lt_le_incl, Z.quot_lt; lia.
Qed.

(** X1.  When [renderScene] refreshes the FPS counter, more than one
    second after the previous refresh, the divisor [(int)(dtime -
    timebase)] is at least 1: the integer division never divides by zero.
    The new [fps] is the number of frames since the previous refresh
    divided by the whole seconds passed, between 0 and that number of
    frames; the frame count restarts at 1 and [timebase] becomes the
    current time. *)
Theorem fps_refresh_divides_safely (now : R) (g : Globals) :
  1 < now - timebase g ->
  (0 <= tempFrame g)%Z ->
  let seconds := double_to_int (now - timebase g) in
  let g' := fst (renderScene now g) in
  (1 <= seconds)%Z
  /\ IZR seconds <= now - timebase g < IZR seconds + 1
  /\ fps g' = (tempFrame g ÷ seconds)%Z
  /\ (0 <= fps g' <= tempFrame g)%Z
  /\ tempFrame g' = 1%Z
  /\ timebase g' = now
  /\ titles (snd (renderScene now g)) = [ title (fps g') (totalFrame g) ].
Proof.
  intros Hsec Htemp seconds g'.
  destruct (double_to_int_above_one _ Hsec) as [Hone Hbracket].
  fold seconds in Hone, Hbracket.
  assert (Hfps : fps g' = (tempFrame g ÷ seconds)%Z).
  { subst g' seconds. unfold renderScene; cbn [fst fps].
    destruct (Rlt_dec 1 (now - timebase g)); [ reflexivity | contradiction ]. }
  split; [ exact Hone | ]. split; [ exact Hbracket | ].
  split; [ exact Hfps | ]. split.
  { rewrite Hfps. now apply quot_bounds. }
  split; [ | split ].
  - subst g'. unfold renderScene; cbn [fst tempFrame].
    destruct (Rlt_dec 1 (now - timebase g)); [ reflexivity | contradiction ].
  - subst g'. unfold renderScene; cbn [fst timebase].
    destruct (Rlt_dec 1 (now - timebase g)); [ reflexivity | contradiction ].
  - rewrite Hfps. subst seconds.
    unfold renderScene; cbn [snd].
    destruct (Rlt_dec 1 (now - timebase g)); [ | contradiction ].
    rewrite <- app_comm_cons. cbn [app titles]. f_equal.
Qed.

(** Two and a half seconds after start, 150 frames rendered: 75 FPS. *)
Lemma fps_refresh_divides_safely_witness :
  let g :=
    {| compToFrag := 1; lightToFrag := 4; matrixBuffer := 2;
       triangleBuffer := 3; draw_program := 4; transform_program := 5;
       vertex_shader := 1; fragment_shader := 2; compute_shader := 3;
       eye_loc := 0; ray00 := 1; ray01 := 2; ray10 := 3; ray11 := 4;
       cameraPos := mkvec3 0 8 8;
       tempFrame := 150; totalFrame := 150;
       dtime := 0; timebase := 0; totalTime := 0; fps := 0;
       width := 1280; height := 720 |} in
  let seconds := double_to_int (2.5 - timebase g) in
  let g' := fst (renderScene 2.5 g) in
  (1 <= seconds)%Z
  /\ IZR seconds <= 2.5 - timebase g < IZR seconds + 1
  /\ fps g' = (tempFrame g ÷ seconds)%Z
  /\ (0 <= fps g' <= tempFrame g)%Z
  /\ tempFrame g' = 1%Z
  /\ timebase g' = 2.5
  /\ titles (snd (renderScene 2.5 g)) = [ title (fps g') (totalFrame g) ].
Proof.
  intros g.
  apply (fps_refresh_divides_safely 2.5 g); cbn [timebase tempFrame g].
  - lra.
  - lia.
Defined.


(** ** The counters of a session *)

(** [renderScene] keeps the counters ordered: frames since the last
    refresh at most frames in total, and [fps] within the same bound. *)
Lemma renderScene_counters (now : R) (g : Globals) :
  (0 <= tempFrame g <= totalFrame g)%Z ->
  (0 <= fps g <= totalFrame g)%Z ->
  let g' := fst (renderScene now g) in
  (1 <= tempFrame g' <= totalFrame g')%Z /\ (0 <= fps g' <= totalFrame g')%Z.
Proof.
  intros Htemp Hfps g'. subst g'.
  unfold renderScene; cbn [fst tempFrame totalFrame fps].
  destruct (Rlt_dec 1 (now - timebase g)) as [Hsec | Hsec].
  - destruct (double_to_int_above_one _ Hsec) as [Hone _].
    generalize (quot_bounds (tempFrame g) _ (proj1 Htemp) Hone). lia.
  - lia.
Qed.

Lemma loop_body_counters (env : Env) (pixels : Z) (n : nat) (g : Globals) :
  (0 <= tempFrame g <= totalFrame g)%Z ->
  (0 <= fps g <= totalFrame g)%Z ->
  let g' := fst (loop_body env pixels n g) in
  (1 <= tempFrame g' <= totalFrame g')%Z /\ (0 <= fps g' <= totalFrame g')%Z.
Proof.
  intros Htemp Hfps g'. subst g'. rewrite loop_body_fst.
  rewrite (poll_preserves _ tempFrame), (poll_preserves _ totalFrame),
          (poll_preserves _ fps) by reflexivity.
  now apply renderScene_counters.
Qed.

Lemma iterations_counters (env : Env) (pixels : Z) (k : nat) :
  forall (n : nat) (g : Globals),
    (0 <= tempFrame g <= totalFrame g)%Z ->
    (0 <= fps g <= totalFrame g)%Z ->
    let g' := fst (iterations env pixels k n g) in
    totalFrame g' = (totalFrame g + Z.of_nat k)%Z
    /\ (0 <= tempFrame g' <= totalFrame g')%Z
    /\ (0 <= fps g' <= totalFrame g')%Z.
Proof.
  induction k as [ | k IH ]; intros n g Htemp Hfps.
  - cbn [iterations fst]. repeat split; lia.
  - rewrite iterations_succ. cbn [fst].
    destruct (loop_body_counters env pixels n g Htemp Hfps) as [Ht Hf].
    destruct (IH (S n) (fst (loop_body env pixels n g))) as [Hk [Ht' Hf']];
      [ lia | exact Hf | ].
    rewrite loop_body_totalFrame in Hk.
    split; [ lia | ]. split; assumption.
Qed.

(** X2.  Throughout a session, after any number [k] of iterations, the
    frame counter is [k], the frames counted since the last FPS refresh
    are between 0 and [k] and so is [fps]; at the end of the session all
    three are at most 600, far inside the range of a 32-bit [int].  This
    holds for every clock. *)
Theorem session_counters_bounded (env : Env) (k extra : nat) :
  (let g := fst (iterations env (3 * 1280 * 720) k 0
                            (fst (init env initial_globals))) in
   totalFrame g = Z.of_nat k
   /\ (0 <= tempFrame g <= Z.of_nat k)%Z
   /\ (0 <= fps g <= Z.of_nat k)%Z)
  /\ exists g tr,
       main env (600 + extra) = Some (g, tr)
       /\ totalFrame g = 600%Z
       /\ (0 <= tempFrame g <= 600)%Z
       /\ (0 <= fps g <= 600)%Z
       /\ (600 < 2 ^ 31)%Z.
Proof.
  assert (Hinit : let g1 := fst (init env initial_globals) in
                  totalFrame g1 = 0%Z /\ tempFrame g1 = 0%Z /\ fps g1 = 0%Z).
  { unfold init. init_cases; repeat split. }
  destruct Hinit as [H1 [H2 H3]].
  assert (Hall : forall j,
             let g := fst (iterations env (3 * 1280 * 720) j 0
                                      (fst (init env initial_globals))) in
             totalFrame g = Z.of_nat j
             /\ (0 <= tempFrame g <= Z.of_nat j)%Z
             /\ (0 <= fps g <= Z.of_nat j)%Z).
  { intros j.
    destruct (iterations_counters env (3 * 1280 * 720) j 0
                                  (fst (init env initial_globals)))
      as [Hk [Ht Hf]]; [ lia | lia | ].
    cbv zeta. rewrite H1 in Hk. lia. }
  split; [ apply Hall | ].
  eexists; eexists. split; [ apply (main_with_trace session_meshes) | ].
  cbn [fst]. destruct (Hall 600%nat) as [Hk [Ht Hf]].
  fold (init env initial_globals).
  rewrite Hk in *. change (Z.of_nat 600) with 600%Z in *.
  repeat split; lia.
Qed.


(** ** A session and its clock *)

Lemma init_with_clock (ms : list Mesh) (env : Env) (clock' : nat -> R)
      (g : Globals) :
  init_with ms (with_clock env clock') g = init_with ms env g.
Proof. reflexivity. Qed.

Lemma renderScene_scene (now : R) (g : Globals) :
  scene (fst (renderScene now g))
  = ((totalFrame g + 1)%Z, configuration g,
     (vertex_shader g, fragment_shader g, compute_shader g)).
Proof. reflexivity. Qed.

Lemma poll_scene (sizes : list (Z * Z)) (g : Globals) :
  scene (fst (poll sizes g))
  = (totalFrame g,
     (compToFrag g, lightToFrag g, matrixBuffer g, triangleBuffer g,
      (draw_program g, transform_program g),
      (eye_loc g, ray00 g, ray01 g, ray10 g, ray11 g),
      last sizes (width g, height g)),
     (vertex_shader g, fragment_shader g, compute_shader g)).
Proof.
  unfold scene, configuration. rewrite poll_size.
  rewrite (poll_preserves _ totalFrame), (poll_preserves _ compToFrag),
          (poll_preserves _ lightToFrag), (poll_preserves _ matrixBuffer),
          (poll_preserves _ triangleBuffer), (poll_preserves _ draw_program),
          (poll_preserves _ transform_program), (poll_preserves _ eye_loc),
          (poll_preserves _ ray00), (poll_preserves _ ray01),
          (poll_preserves _ ray10), (poll_preserves _ ray11),
          (poll_preserves _ vertex_shader), (poll_preserves _ fragment_shader),
          (poll_preserves _ compute_shader) by reflexivity.
  reflexivity.
Qed.

(** The scene after an iteration is a function of the scene before it and
    of the window events, not of the clock. *)
Lemma loop_body_scene (env1 env2 : Env) (pixels : Z) (n : nat)
      (g1 g2 : Globals) :
  resizes env1 n = resizes env2 n ->
  scene g1 = scene g2 ->
  scene (fst (loop_body env1 pixels n g1))
  = scene (fst (loop_body env2 pixels n g2)).
Proof.
  intros Hres Hscene. rewrite !loop_body_fst, !poll_scene, Hres.
  assert (H := Hscene). unfold scene, configuration in H.
  injection H as H1 H2 H3 H4 H5 H6 H7 H8 H9 H10 H11 H12 H13 H14 H15 H16 H17.
  cbn [renderScene fst totalFrame compToFrag lightToFrag matrixBuffer
       triangleBuffer draw_program transform_program eye_loc ray00 ray01
       ray10 ray11 width height vertex_shader fragment_shader
       compute_shader].
  now rewrite H1, H2, H3, H4, H5, H6, H7, H8, H9, H10, H11, H12, H13, H14,
              H15, H16, H17.
Qed.

Lemma content_viewports (sizes : list (Z * Z)) :
  content (map (fun wh => glViewport 0 0 (fst wh) (snd wh)) sizes)
  = map (fun wh => glViewport 0 0 (fst wh) (snd wh)) sizes.
Proof. induction sizes as [ | wh l IH ]; simpl; [ | rewrite IH ]; reflexivity. Qed.

Lemma scene_frame_calls (g1 g2 : Globals) :
  scene g1 = scene g2 -> frame_calls g1 = frame_calls g2.
Proof.
  intros H. apply frame_calls_ext.
  - exact (f_equal (fun s => fst (fst s)) H).
  - exact (f_equal (fun s => snd (fst s)) H).
Qed.

Lemma scene_fields (g1 g2 : Globals) :
  scene g1 = scene g2 ->
  totalFrame g1 = totalFrame g2 /\ width g1 = width g2
  /\ height g1 = height g2 /\ vertex_shader g1 = vertex_shader g2
  /\ fragment_shader g1 = fragment_shader g2
  /\ draw_program g1 = draw_program g2.
Proof.
  unfold scene, configuration. intros H.
  injection H as H1 H2 H3 H4 H5 H6 H7 H8 H9 H10 H11 H12 H13 H14 H15 H16 H17.
  repeat split; assumption.
Qed.

(** The calls of an iteration other than the window title are a function
    of the scene and of the window events. *)
Lemma loop_body_content (env1 env2 : Env) (pixels : Z) (n : nat)
      (g1 g2 : Globals) :
  resizes env1 n = resizes env2 n ->
  scene g1 = scene g2 ->
  content (snd (loop_body env1 pixels n g1))
  = content (snd (loop_body env2 pixels n g2)).
Proof.
  intros Hres Hscene.
  destruct (scene_fields _ _ (loop_body_scene env1 env2 pixels n g1 g2
                                              Hres Hscene))
    as [Hf [Hw [Hh _]]].
  rewrite !loop_body_snd, !content_app, !renderScene_content,
          !content_viewports.
  rewrite (scene_frame_calls g1 g2 Hscene), Hres, Hf, Hw, Hh.
  reflexivity.
Qed.

Lemma capture_loop_clock (env : Env) (clock' : nat -> R) (pixels : Z)
      (fuel : nat) :
  forall (n : nat) (g1 g2 : Globals),
    scene g1 = scene g2 ->
    outcome (capture_loop (with_clock env clock') pixels fuel n g1)
    = outcome (capture_loop env pixels fuel n g2).
Proof.
  induction fuel as [ | fuel IH ]; intros n g1 g2 Hscene;
    destruct (scene_fields _ _ Hscene) as [Hf _].
  - cbn [capture_loop]. rewrite Hf.
    destruct (totalFrame g2 =? maxFrames)%Z; [ | reflexivity ].
    cbn [outcome option_map fst snd]. now rewrite Hscene.
  - destruct (Z.eq_dec (totalFrame g2) maxFrames) as [E | E].
    + rewrite !capture_loop_done by congruence.
      cbn [outcome option_map fst snd]. now rewrite Hscene.
    + rewrite !capture_loop_step by congruence.
      assert (Hbody := loop_body_content (with_clock env clock') env pixels n
                                         g1 g2 eq_refl Hscene).
      assert (Hnext := IH (S n) _ _
                          (loop_body_scene (with_clock env clock') env pixels
                                           n g1 g2 eq_refl Hscene)).
      destruct (capture_loop (with_clock env clock') pixels fuel (S n) _)
        as [[ga ea] | ];
        destruct (capture_loop env pixels fuel (S n) _) as [[gb eb] | ];
        cbn [outcome option_map fst snd] in *; try discriminate;
        [ | reflexivity ].
      assert (Hs : scene ga = scene gb) by congruence.
      assert (He : content ea = content eb) by congruence.
      now rewrite !content_app, Hbody, Hs, He.
Qed.

(** X3.  The calls of a whole session other than the window titles do
    not depend on the clock: run against the same outside world with any
    other clock, [main] makes the same calls with the same arguments in
    the same order, ends or not with the same fuel, and leaves the same
    frame counter, handles and window size. *)
Theorem session_content_independent_of_clock
        (env : Env) (clock' : nat -> R) (fuel : nat) :
  outcome (main (with_clock env clock') fuel) = outcome (main env fuel).
Proof.
  unfold main, main_with. rewrite init_with_clock.
  destruct (init_with session_meshes env initial_globals) as [g1 e_init].
  assert (Hloop := capture_loop_clock env clock'
                     (3 * width g1 * height g1) fuel 0 g1 g1 eq_refl).
  destruct (capture_loop (with_clock env clock') _ fuel 0 g1)
    as [[ga ea] | ];
    destruct (capture_loop env _ fuel 0 g1) as [[gb eb] | ];
    cbn [outcome option_map fst snd] in *; try discriminate;
    [ | reflexivity ].
  assert (Hs : scene ga = scene gb) by congruence.
  assert (He : content ea = content eb) by congruence.
  destruct (scene_fields _ _ Hs) as [_ [_ [_ [Hv [Hfr Hd]]]]].
  rewrite !content_app, He, Hs, Hv, Hfr, Hd. reflexivity.
Qed.


(** ** Readbacks and the window size *)

Lemma iterations_readbacks_sizes (env : Env) (pixels : Z) (k : nat) :
  forall (n : nat) (g : Globals),
    readbacks (snd (iterations env pixels k n g))
    = map (fun i =>
             (fst (size_from env (width g, height g) n i),
              snd (size_from env (width g, height g) n i), pixels))
          (seq 0 k).
Proof.
  induction k as [ | k IH ]; intros n g; [ reflexivity | ].
  rewrite iterations_succ. cbn [snd].
  rewrite readbacks_app, loop_body_readbacks, IH, loop_body_size.
  cbn [seq map app size_from]. f_equal.
  rewrite <- (seq_shift k 0), map_map. reflexivity.
Qed.

Lemma iterations_viewports (env : Env) (pixels : Z) (k : nat) :
  forall (n : nat) (g : Globals),
    viewports (snd (iterations env pixels k n g))
    = flat_map (fun i => resizes env (n + i)) (seq 0 k).
Proof.
  induction k as [ | k IH ]; intros n g; [ reflexivity | ].
  rewrite iterations_first_viewports, IH.
  cbn [seq flat_map]. rewrite Nat.add_0_r. f_equal.
  rewrite <- (seq_shift k 0), flat_map_map.
  apply flat_map_ext. intros i. f_equal. lia.
Qed.

Lemma main_with_window (ms : list Mesh) (env : Env) (extra : nat) :
  exists g tr,
    main_with ms env (600 + extra) = Some (g, tr)
    /\ readbacks tr
       = map (fun i =>
                (fst (size_from env (1280, 720)%Z 0 i),
                 snd (size_from env (1280, 720)%Z 0 i), 2764800%Z))
             (seq 0 600)
    /\ viewports tr = flat_map (resizes env) (seq 0 600).
Proof.
  destruct (main_with_readbacks ms env extra)
    as [g [tr [Hrun [Hread Hview]]]].
  exists g, tr. split; [ exact Hrun | ].
  rewrite Hread, Hview, iterations_readbacks_sizes, iterations_viewports.
  destruct (init_with_globals ms env initial_globals) as [_ [Hw Hh]].
  rewrite Hw, Hh. split; reflexivity.
Qed.

(** X4.  In a session the readback of iteration [i] asks for the window
    size left by the most recent resize reported up to and including the
    events of iteration [i] (1280 x 720 if there was none), always into
    the array of 2764800 bytes; and [glViewport] is called once for every
    size reported, in the order reported. *)
Theorem readbacks_follow_window (env : Env) (extra : nat) :
  exists g tr,
    main env (600 + extra) = Some (g, tr)
    /\ readbacks tr
       = map (fun i =>
                (fst (size_from env (1280, 720)%Z 0 i),
                 snd (size_from env (1280, 720)%Z 0 i), 2764800%Z))
             (seq 0 600)
    /\ viewports tr = flat_map (resizes env) (seq 0 600).
Proof. apply main_with_window. Qed.

Lemma size_from_quiet (env : Env) (s : Z * Z) (i : nat) :
  (forall n, resizes env n = []) ->
  forall n, size_from env s n i = s.
Proof.
  intros Hquiet. induction i as [ | i IH ]; intros n; cbn [size_from];
    rewrite Hquiet; [ reflexivity | apply IH ].
Qed.

Lemma map_const_seq (A : Type) (x : A) (len start : nat) :
  map (fun _ => x) (seq start len) = repeat x len.
Proof.
  revert start. induction len as [ | len IH ]; intros start;
    [ reflexivity | ].
  cbn [seq map repeat]. now rewrite IH.
Qed.

(** X5.  If the window is never resized, each of the 600 readbacks asks
    for 1280 x 720 pixels, exactly the [3 * 1280 * 720] bytes of the pixel
    array, and the viewport is never changed. *)
Theorem steady_window_readbacks_fit (env : Env) (extra : nat) :
  (forall n, resizes env n = []) ->
  exists g tr,
    main env (600 + extra) = Some (g, tr)
    /\ readbacks tr = repeat (1280, 720, 2764800)%Z 600
    /\ Forall (fun r => (3 * fst (fst r) * snd (fst r) = snd r)%Z)
              (readbacks tr)
    /\ viewports tr = [].
Proof.
  intros Hquiet.
  destruct (main_with_window session_meshes env extra)
    as [g [tr [Hrun [Hread Hview]]]].
  exists g, tr. split; [ exact Hrun | ].
  assert (Hrep : readbacks tr = repeat (1280, 720, 2764800)%Z 600).
  { rewrite Hread.
    rewrite (map_ext _ (fun _ => (1280, 720, 2764800)%Z))
      by (intros i; now rewrite size_from_quiet).
    apply map_const_seq. }
  split; [ exact Hrep | ]. split.
  - rewrite Hrep. apply Forall_forall. intros r Hr.
    apply repeat_spec in Hr. subst r. reflexivity.
  - rewrite Hview.
    rewrite (flat_map_ext _ (fun _ => [])) by (intros i; apply Hquiet).
    generalize (seq 0 600). intros l. induction l; simpl; auto.
Qed.

Lemma steady_window_readbacks_fit_witness :
  exists g tr,
    main quiet_env (600 + 0) = Some (g, tr)
    /\ readbacks tr = repeat (1280, 720, 2764800)%Z 600
    /\ Forall (fun r => (3 * fst (fst r) * snd (fst r) = snd r)%Z)
              (readbacks tr)
    /\ viewports tr = [].
Proof.
  apply (steady_window_readbacks_fit quiet_env 0).
  intros n. reflexivity.
Defined.


(** ** Buffer writes of a session *)

Lemma filter_flat_map (A B : Type) (f : B -> bool) (h : A -> list B)
      (l : list A) :
  filter f (flat_map h l) = flat_map (fun x => filter f (h x)) l.
Proof.
  induction l as [ | x l IH ]; [ reflexivity | ].
  cbn [flat_map]. now rewrite filter_app, IH.
Qed.

Lemma flat_map_nil (A B : Type) (l : list A) :
  flat_map (fun _ : A => @nil B) l = [].
Proof. induction l; simpl; auto. Qed.

(** X6.  With four distinct buffer names, the [glBufferData] calls of a
    session write: the mesh buffer once, in [init], with the two mesh
    records and [2 * sizeof(Mesh)] bytes, and never again; the buffer of
    transformed triangles once, as an allocation without data; the
    transform buffer once without data and then once per frame, 600
    times, each time 128 bytes holding two matrices; the light buffer
    once without data and then once per frame, each time 96 bytes holding
    two light records. *)
Theorem session_buffer_writes (env : Env) (extra : nat) :
  NoDup [ buffer_name env 0; buffer_name env 1; buffer_name env 2;
          buffer_name env 3 ] ->
  exists g tr,
    main env (600 + extra) = Some (g, tr)
    /\ writes_to (buffer_name env 2) (uploads 0 tr)
       = [ (buffer_name env 2, triangleBufferSize, Mesh_array session_meshes) ]
    /\ writes_to (buffer_name env 0) (uploads 0 tr)
       = [ (buffer_name env 0, compToFragSize, nullptr) ]
    /\ writes_to (buffer_name env 1) (uploads 0 tr)
       = (buffer_name env 1, matrixBufferSize, nullptr)
         :: map (fun i => (buffer_name env 1, (2 * sizeof_mat4x4)%Z,
                           mat4_array (test (videoTime (Z.of_nat i)))))
                (seq 0 600)
    /\ tl (writes_to (buffer_name env 3) (uploads 0 tr))
       = map (fun i => (buffer_name env 3, (2 * sizeof_light)%Z,
                        light_array (lights (videoTime (Z.of_nat i)))))
             (seq 0 600)
    /\ (forall t, List.length (test t) = 2%nat /\ List.length (lights t) = 2%nat).
Proof.
  intros Hnames.
  assert (H01 : buffer_name env 0 <> buffer_name env 1
                /\ buffer_name env 0 <> buffer_name env 2
                /\ buffer_name env 0 <> buffer_name env 3
                /\ buffer_name env 1 <> buffer_name env 2
                /\ buffer_name env 1 <> buffer_name env 3
                /\ buffer_name env 2 <> buffer_name env 3).
  { repeat match goal with
           | H : NoDup (_ :: _) |- _ =>
               apply NoDup_cons_iff in H; destruct H
           end.
    cbn [In] in *. intuition congruence. }
  destruct H01 as [N01 [N02 [N03 [N12 [N13 N23]]]]].
  destruct (main_with_uploads session_meshes env extra) as [g [tr [Hrun Hup]]].
  exists g, tr. split; [ exact Hrun | ].
  rewrite Hup. unfold writes_to.
  rewrite !filter_app, !filter_flat_map. cbn [filter fst].
  repeat match goal with
         | |- context [ (?x =? ?x)%Z ] => rewrite (Z.eqb_refl x)
         end.
  repeat match goal with
         | |- context [ (?x =? ?y)%Z ] =>
             rewrite (proj2 (Z.eqb_neq x y)) by congruence
         end.
  rewrite !flat_map_nil. cbn [app tl].
  generalize (seq 0 600). intros l.
  split; [ reflexivity | ]. split; [ reflexivity | ].
  split; [ | split ].
  - apply f_equal.
    induction l as [ | i l IH ]; [ reflexivity | ].
    cbn [flat_map map app]. now rewrite IH.
  - induction l as [ | i l IH ]; [ reflexivity | ].
    cbn [flat_map map app]. now rewrite IH.
  - intros t. split; reflexivity.
Qed.

Lemma session_buffer_writes_witness :
  exists g tr,
    main quiet_env (600 + 0) = Some (g, tr)
    /\ writes_to 3%Z (uploads 0 tr)
       = [ (3%Z, triangleBufferSize, Mesh_array session_meshes) ]
    /\ writes_to 1%Z (uploads 0 tr) = [ (1%Z, compToFragSize, nullptr) ]
    /\ writes_to 2%Z (uploads 0 tr)
       = (2%Z, matrixBufferSize, nullptr)
         :: map (fun i => (2%Z, (2 * sizeof_mat4x4)%Z,
                           mat4_array (test (videoTime (Z.of_nat i)))))
                (seq 0 600)
    /\ tl (writes_to 4%Z (uploads 0 tr))
       = map (fun i => (4%Z, (2 * sizeof_light)%Z,
                        light_array (lights (videoTime (Z.of_nat i)))))
             (seq 0 600)
    /\ (forall t, List.length (test t) = 2%nat /\ List.length (lights t) = 2%nat).
Proof.
  apply (session_buffer_writes quiet_env 0).
  cbn [quiet_env buffer_name Z.of_nat Pos.of_succ_nat Pos.succ].
  repeat constructor; cbn [In]; intros H;
    repeat destruct H as [H | H]; try discriminate; exact H.
Defined.


(** ** Programs and binding points at dispatch and draw *)

Lemma gpu_work_app (t1 t2 : list event) :
  forall s,
    gpu_work s (t1 ++ t2) = gpu_work s t1 ++ gpu_work (bindings_after s t1) t2.
Proof.
  induction t1 as [ | e t1 IH ]; intros s; [ reflexivity | ].
  destruct e; cbn [app gpu_work bindings_after]; rewrite ?IH; reflexivity.
Qed.

Lemma gpu_work_frame_calls (g : Globals) (s : bindings) :
  gpu_work s (frame_calls g) = frame_work g.
Proof. unfold frame_work. frame_shape. reflexivity. Qed.

Lemma gpu_work_viewports (sizes : list (Z * Z)) (s : bindings) :
  gpu_work s (map (fun wh => glViewport 0 0 (fst wh) (snd wh)) sizes) = [].
Proof. induction sizes; simpl; auto. Qed.

Lemma renderScene_gpu_work (now : R) (g : Globals) (s : bindings) :
  gpu_work s (snd (renderScene now g)) = frame_work g.
Proof.
  rewrite (renderScene_projection _ (gpu_work s)) by reflexivity.
  apply gpu_work_frame_calls.
Qed.

(** One iteration: one dispatch, then one draw, whatever was bound or in
    use before. *)
Lemma loop_body_gpu_work (env : Env) (pixels : Z) (n : nat) (g : Globals)
      (s : bindings) :
  gpu_work s (snd (loop_body env pixels n g)) = frame_work g.
Proof.
  rewrite loop_body_snd, gpu_work_app, renderScene_gpu_work.
  cbn [app gpu_work]. rewrite gpu_work_app, gpu_work_viewports.
  cbn [app gpu_work]. apply app_nil_r.
Qed.

Lemma loop_body_frame_work (env : Env) (pixels : Z) (n : nat) (g : Globals) :
  frame_work (fst (loop_body env pixels n g)) = frame_work g.
Proof.
  rewrite loop_body_fst. unfold frame_work.
  rewrite (poll_preserves _ transform_program), (poll_preserves _ compToFrag),
          (poll_preserves _ triangleBuffer), (poll_preserves _ matrixBuffer),
          (poll_preserves _ draw_program), (poll_preserves _ lightToFrag)
    by reflexivity.
  reflexivity.
Qed.

Lemma iterations_gpu_work (env : Env) (pixels : Z) (k : nat) :
  forall (n : nat) (g : Globals) (s : bindings),
    gpu_work s (snd (iterations env pixels k n g))
    = List.concat (repeat (frame_work g) k).
Proof.
  induction k as [ | k IH ]; intros n g s; [ reflexivity | ].
  rewrite iterations_succ. cbn [snd].
  rewrite gpu_work_app, loop_body_gpu_work, IH, loop_body_frame_work.
  reflexivity.
Qed.

Lemma init_with_gpu_work (ms : list Mesh) (env : Env) (g : Globals)
      (s : bindings) :
  gpu_work s (snd (init_with ms env g)) = [].
Proof. init_cases; reflexivity. Qed.

Lemma init_with_frame_work (ms : list Mesh) (env : Env) (g : Globals) :
  frame_work (fst (init_with ms env g))
  = [ dispatch (mkbindings (program_name env 1) (buffer_name env 0)
                           (buffer_name env 2) (buffer_name env 1)) 14 1 1;
      draw (mkbindings (program_name env 0) (buffer_name env 0)
                       (buffer_name env 3) (buffer_name env 1)) 0 4 ].
Proof. init_cases; reflexivity. Qed.

Lemma gpu_work_cleanup (g : Globals) (s : bindings) :
  gpu_work s (cleanup_calls g) = [].
Proof. reflexivity. Qed.

(** X7.  A session hands the GPU exactly 600 pairs of work, a compute
    dispatch of 14 groups followed by a draw of 4 vertices.  Every
    dispatch runs with the transform program in use and the buffer of
    transformed triangles, the mesh buffer and the transform buffer bound
    to the binding points 0, 1 and 2; every draw runs with the draw
    program in use and the buffer of transformed triangles and the light
    buffer bound to the points 0 and 1.  The 14 groups and the 14
    triangles of the output buffer are the 2 + 12 triangles of the two
    meshes. *)
Theorem session_gpu_work (env : Env) (extra : nat) (s : bindings) :
  (exists g tr,
      main env (600 + extra) = Some (g, tr)
      /\ gpu_work s tr
         = List.concat
             (repeat
                [ dispatch (mkbindings (program_name env 1) (buffer_name env 0)
                                       (buffer_name env 2) (buffer_name env 1))
                           14 1 1;
                  draw (mkbindings (program_name env 0) (buffer_name env 0)
                                   (buffer_name env 3) (buffer_name env 1))
                       0 4 ]
                600))
  /\ fold_right Z.add 0%Z (map numTriangles session_meshes) = 14%Z
  /\ compToFragSize = (14 * sizeof_triangle)%Z.
Proof.
  split; [ | split; reflexivity ].
  eexists; eexists. split; [ apply (main_with_trace session_meshes) | ].
  rewrite !gpu_work_app, init_with_gpu_work, iterations_gpu_work,
          init_with_frame_work.
  change (gpu_work s startup_calls) with (@nil work).
  rewrite gpu_work_cleanup, app_nil_r. reflexivity.
Qed.


(** ** Readings of a trace that the loop does not touch *)

Section OutsideTheLoop.

Variables (A : Type) (proj : list event -> list A).

Hypothesis proj_nil : proj [] = [].
Hypothesis proj_app : forall t1 t2, proj (t1 ++ t2) = proj t1 ++ proj t2.
Hypothesis proj_title : forall s tr, proj (glfwSetWindowTitle s :: tr) = proj tr.
Hypothesis proj_frame : forall g, proj (frame_calls g) = [].
Hypothesis proj_viewport : forall w h, proj [ glViewport 0 0 w h ] = [].
Hypothesis proj_present : proj [ glfwSwapBuffers; glfwPollEvents ] = [].
Hypothesis proj_export :
  forall w h pixels pitch name,
    proj [ glReadPixels 0 0 w h pixels;
           FreeImage_ConvertFromRawBits w h pitch;
           FreeImage_Save name; FreeImage_Unload ] = [].

Lemma outside_viewports (sizes : list (Z * Z)) :
  proj (map (fun wh => glViewport 0 0 (fst wh) (snd wh)) sizes) = [].
Proof.
  induction sizes as [ | wh l IH ]; cbn [map].
  - exact proj_nil.
  - change (proj ([ glViewport 0 0 (fst wh) (snd wh) ] ++
                  map (fun wh => glViewport 0 0 (fst wh) (snd wh)) l) = []).
    now rewrite proj_app, proj_viewport, IH.
Qed.

Lemma outside_loop_body (env : Env) (pixels : Z) (n : nat) (g : Globals) :
  proj (snd (loop_body env pixels n g)) = [].
Proof.
  rewrite loop_body_snd, !proj_app.
  rewrite (renderScene_projection _ proj proj_title), proj_frame.
  now rewrite proj_present, outside_viewports, proj_export.
Qed.

Lemma outside_iterations (env : Env) (pixels : Z) (k : nat) :
  forall (n : nat) (g : Globals), proj (snd (iterations env pixels k n g)) = [].
Proof.
  induction k as [ | k IH ]; intros n g.
  - exact proj_nil.
  - rewrite iterations_succ. cbn [snd].
    now rewrite proj_app, outside_loop_body, IH.
Qed.

(** Such a reading sees of a session only start-up, [init] and
    clean-up. *)
Lemma outside_main (ms : list Mesh) (env : Env) (extra : nat)
      (g : Globals) (tr : list event) :
  main_with ms env (600 + extra) = Some (g, tr) ->
  proj tr
  = proj startup_calls ++ proj (snd (init_with ms env initial_globals))
    ++ proj [ CreateDirectoryA "exportedFrames" ]
    ++ proj (cleanup_calls
               (fst (iterations env (3 * 1280 * 720) 600 0
                                (fst (init_with ms env initial_globals))))).
Proof.
  intros Hrun.
  assert (Htrace := main_with_trace ms env extra). cbv zeta in Htrace.
  rewrite Hrun in Htrace.
  assert (Htr : tr = startup_calls
                     ++ snd (init_with ms env initial_globals)
                     ++ [CreateDirectoryA "exportedFrames"]
                     ++ snd (iterations env (3 * 1280 * 720) 600 0
                               (fst (init_with ms env initial_globals)))
                     ++ cleanup_calls
                          (fst (iterations env (3 * 1280 * 720) 600 0
                                  (fst (init_with ms env initial_globals)))))
    by congruence.
  rewrite Htr. now rewrite !proj_app, outside_iterations.
Qed.

End OutsideTheLoop.

Lemma iterations_preserves (A : Type) (field : Globals -> A) :
  (forall w h g, field (fst (window_size_callback w h g)) = field g) ->
  (forall now g, field (fst (renderScene now g)) = field g) ->
  forall env pixels k n g,
    field (fst (iterations env pixels k n g)) = field g.
Proof.
  intros Hcb Hrender env pixels k.
  induction k as [ | k IH ]; intros n g; [ reflexivity | ].
  rewrite iterations_succ. cbn [fst].
  now rewrite IH, loop_body_fst, (poll_preserves _ field Hcb), Hrender.
Qed.

Lemma cleanup_calls_session (ms : list Mesh) (env : Env) :
  cleanup_calls (fst (iterations env (3 * 1280 * 720) 600 0
                                 (fst (init_with ms env initial_globals))))
  = [ glDeleteShader (shader_name env 0); glDeleteShader (shader_name env 1);
      glDeleteProgram (program_name env 0); delete_pixels; glfwTerminate;
      system ffmpeg_command ].
Proof.
  unfold cleanup_calls.
  rewrite (iterations_preserves _ vertex_shader),
          (iterations_preserves _ fragment_shader),
          (iterations_preserves _ draw_program) by reflexivity.
  init_cases; reflexivity.
Qed.

Lemma deleted_shaders_app (t1 t2 : list event) :
  deleted_shaders (t1 ++ t2) = deleted_shaders t1 ++ deleted_shaders t2.
Proof. projection_app t1. Qed.

Lemma deleted_programs_app (t1 t2 : list event) :
  deleted_programs (t1 ++ t2) = deleted_programs t1 ++ deleted_programs t2.
Proof. projection_app t1. Qed.

Lemma attached_app (t1 t2 : list event) :
  attached (t1 ++ t2) = attached t1 ++ attached t2.
Proof. projection_app t1. Qed.

Lemma sources_app (t1 t2 : list event) :
  sources (t1 ++ t2) = sources t1 ++ sources t2.
Proof. projection_app t1. Qed.

Ltac outside_loop :=
  first [ reflexivity | intros; frame_shape; reflexivity ].


(** ** Shader files, compile failures and deletions *)

Lemma createShader_fst (env : Env) (k : nat) (code : string) (type : GLenum) :
  fst (createShader env k code type) = shader_name env k.
Proof. unfold createShader. destruct (compile_log env type code); reflexivity. Qed.

Lemma createShader_readings (env : Env) (k : nat) (code : string)
      (type : GLenum) :
  let e := snd (createShader env k code type) in
  sources e = [ (shader_name env k, code) ]
  /\ compiles e = [ (shader_name env k, compiled env type code) ]
  /\ deleted_shaders e
     = (if compiled env type code then [] else [ shader_name env k ])
  /\ attached e = []
  /\ deleted_programs e = []
  /\ console e
     = match compile_log env type code with
       | None => []
       | Some infolog =>
           [ ("The shader failed to compile with the error:" ++ endl
              ++ infolog ++ endl)%string ]
       end.
Proof.
  unfold createShader, compiled.
  destruct (compile_log env type code); repeat split.
Qed.

Lemma readShader_readings (env : Env) (path : string) :
  let e := snd (readShader env path) in
  sources e = [] /\ compiles e = [] /\ deleted_shaders e = []
  /\ attached e = [] /\ deleted_programs e = []
  /\ console e
     = match file env path with
       | Some _ => []
       | None => [ ("Can't read file: " ++ path ++ endl)%string ]
       end
  /\ fst (readShader env path)
     = match file env path with
       | Some code => code
       | None => EmptyString
       end.
Proof. unfold readShader. destruct (file env path); repeat split. Qed.

(** [init] reads the three files, then creates the three shaders from
    what it read, then sets up programs and buffers. *)
Lemma init_with_shape (ms : list Mesh) (env : Env) (g : Globals) :
  let vs := "../Assets/VertexShader.glsl"%string in
  let fs := "../Assets/FragmentShader.glsl"%string in
  let cs := "../Assets/Compute.glsl"%string in
  exists rest,
    snd (init_with ms env g)
    = [ glewInit ] ++ snd (readShader env vs) ++ snd (readShader env fs)
      ++ snd (readShader env cs)
      ++ snd (createShader env 0 (fst (readShader env vs)) GL_VERTEX_SHADER)
      ++ snd (createShader env 1 (fst (readShader env fs)) GL_FRAGMENT_SHADER)
      ++ snd (createShader env 2 (fst (readShader env cs)) GL_COMPUTE_SHADER)
      ++ rest
    /\ sources rest = [] /\ compiles rest = [] /\ deleted_shaders rest = []
    /\ deleted_programs rest = [] /\ console rest = []
    /\ attached rest
       = [ (program_name env 0, shader_name env 0);
           (program_name env 0, shader_name env 1);
           (program_name env 1, shader_name env 2) ].
Proof.
  intros vs fs cs. unfold init_with. fold vs fs cs.
  destruct (readShader env vs) as [c1 e1].
  destruct (readShader env fs) as [c2 e2].
  destruct (readShader env cs) as [c3 e3]. cbn [fst snd].
  generalize (createShader_fst env 0 c1 GL_VERTEX_SHADER).
  generalize (createShader_fst env 1 c2 GL_FRAGMENT_SHADER).
  generalize (createShader_fst env 2 c3 GL_COMPUTE_SHADER).
  destruct (createShader env 0 c1 GL_VERTEX_SHADER) as [h1 x1].
  destruct (createShader env 1 c2 GL_FRAGMENT_SHADER) as [h2 x2].
  destruct (createShader env 2 c3 GL_COMPUTE_SHADER) as [h3 x3].
  cbn [fst snd]. intros -> -> ->.
  eexists. split.
  - reflexivity.
  - repeat split.
Qed.


Ltac session_reading proj proj_app Hrun :=
  rewrite (outside_main _ proj eq_refl proj_app
                        ltac:(reflexivity) ltac:(outside_loop)
                        ltac:(reflexivity) ltac:(reflexivity)
                        ltac:(reflexivity) _ _ _ _ _ Hrun).

(** What a session does with its shaders and programs, for every outside
    world. *)
Lemma main_with_setup (ms : list Mesh) (env : Env) (extra : nat)
      (g : Globals) (tr : list event) :
  main_with ms env (600 + extra) = Some (g, tr) ->
  let vs := fst (readShader env "../Assets/VertexShader.glsl") in
  let fs := fst (readShader env "../Assets/FragmentShader.glsl") in
  let cs := fst (readShader env "../Assets/Compute.glsl") in
  sources tr
  = [ (shader_name env 0, vs); (shader_name env 1, fs);
      (shader_name env 2, cs) ]
  /\ compiles tr
     = [ (shader_name env 0, compiled env GL_VERTEX_SHADER vs);
         (shader_name env 1, compiled env GL_FRAGMENT_SHADER fs);
         (shader_name env 2, compiled env GL_COMPUTE_SHADER cs) ]
  /\ deleted_shaders tr
     = (if compiled env GL_VERTEX_SHADER vs then [] else [ shader_name env 0 ])
       ++ (if compiled env GL_FRAGMENT_SHADER fs then []
           else [ shader_name env 1 ])
       ++ (if compiled env GL_COMPUTE_SHADER cs then []
           else [ shader_name env 2 ])
       ++ [ shader_name env 0; shader_name env 1 ]
  /\ deleted_programs tr = [ program_name env 0 ]
  /\ attached tr
     = [ (program_name env 0, shader_name env 0);
         (program_name env 0, shader_name env 1);
         (program_name env 1, shader_name env 2) ].
Proof.
  intros Hrun vs fs cs.
  destruct (init_with_shape ms env initial_globals)
    as [rest [Hinit [Hs [Hc [Hd [Hp [_ Ha]]]]]]].
  destruct (createShader_readings env 0 vs GL_VERTEX_SHADER)
    as [S1 [C1 [D1 [A1 [P1 _]]]]].
  destruct (createShader_readings env 1 fs GL_FRAGMENT_SHADER)
    as [S2 [C2 [D2 [A2 [P2 _]]]]].
  destruct (createShader_readings env 2 cs GL_COMPUTE_SHADER)
    as [S3 [C3 [D3 [A3 [P3 _]]]]].
  destruct (readShader_readings env "../Assets/VertexShader.glsl")
    as [S4 [C4 [D4 [A4 [P4 _]]]]].
  destruct (readShader_readings env "../Assets/FragmentShader.glsl")
    as [S5 [C5 [D5 [A5 [P5 _]]]]].
  destruct (readShader_readings env "../Assets/Compute.glsl")
    as [S6 [C6 [D6 [A6 [P6 _]]]]].
  cbv zeta in *. fold vs fs cs in Hinit, S1, S2, S3, C1, C2, C3, D1, D2, D3,
                                   A1, A2, A3, P1, P2, P3.
  split; [ | split; [ | split; [ | split ] ] ].
  - session_reading sources sources_app Hrun.
    rewrite cleanup_calls_session, Hinit, !sources_app.
    rewrite S1, S2, S3, S4, S5, S6, Hs. reflexivity.
  - session_reading compiles compiles_app Hrun.
    rewrite cleanup_calls_session, Hinit, !compiles_app.
    rewrite C1, C2, C3, C4, C5, C6, Hc. reflexivity.
  - session_reading deleted_shaders deleted_shaders_app Hrun.
    rewrite cleanup_calls_session, Hinit, !deleted_shaders_app.
    rewrite D1, D2, D3, D4, D5, D6, Hd. cbn [deleted_shaders app].
    now rewrite <- !app_assoc.
  - session_reading deleted_programs deleted_programs_app Hrun.
    rewrite cleanup_calls_session, Hinit, !deleted_programs_app.
    rewrite P1, P2, P3, P4, P5, P6, Hp. reflexivity.
  - session_reading attached attached_app Hrun.
    rewrite cleanup_calls_session, Hinit, !attached_app.
    rewrite A1, A2, A3, A4, A5, A6, Ha. reflexivity.
Qed.


(** The console of a session: one line for every shader file that cannot
    be read, then one report for every shader that does not compile. *)
Lemma main_with_console_lines (ms : list Mesh) (env : Env) (extra : nat)
      (g : Globals) (tr : list event) :
  main_with ms env (600 + extra) = Some (g, tr) ->
  console tr
  = flat_map (fun f : nat * string * GLenum =>
                console (snd (readShader env (snd (fst f)))))
             shader_files
    ++ flat_map (fun f : nat * string * GLenum =>
                   console (snd (createShader env (fst (fst f))
                                              (fst (readShader env (snd (fst f))))
                                              (snd f))))
                shader_files.
Proof.
  intros Hrun.
  destruct (main_with_summary ms env extra) as [g' [tr' [Hrun' [Hcon _]]]].
  rewrite Hrun in Hrun'. assert (tr' = tr) by congruence. subst tr'.
  rewrite Hcon.
  destruct (init_with_shape ms env initial_globals)
    as [rest [Hinit [_ [_ [_ [_ [Hrest _]]]]]]].
  rewrite Hinit, !console_app, Hrest.
  cbn [shader_files flat_map fst snd console app].
  now rewrite !app_nil_r, <- !app_assoc.
Qed.

(** X8.  If one of the three shader files cannot be read, [init] prints
    "Can't read file: " and the path, hands the empty string to the
    compiler as the source of that shader, and the session goes on to
    export its 600 frames. *)
Theorem unreadable_shader_compiled_empty
        (env : Env) (extra : nat) (k : nat) (path : string) (type : GLenum) :
  In (k, path, type) shader_files ->
  file env path = None ->
  exists g tr,
    main env (600 + extra) = Some (g, tr)
    /\ In ("Can't read file: " ++ path ++ endl)%string (console tr)
    /\ In (shader_name env k, EmptyString) (sources tr)
    /\ In (shader_name env k, compiled env type EmptyString) (compiles tr)
    /\ List.length (saved_files tr) = 600%nat.
Proof.
  intros Hin Hfile.
  destruct (main_with_frames session_meshes env extra)
    as [g [tr [Hrun [_ [Hsaved _]]]]].
  exists g, tr. split; [ exact Hrun | ].
  destruct (main_with_setup _ _ _ _ _ Hrun) as [Hs [Hc _]].
  rewrite (main_with_console_lines _ _ _ _ _ Hrun), Hs, Hc.
  assert (Hread : readShader env path
                  = (EmptyString,
                     [ cout ("Can't read file: " ++ path ++ endl) ])).
  { unfold readShader. now rewrite Hfile. }
  split; [ | split; [ | split ] ].
  - apply in_or_app. left. apply in_flat_map.
    exists (k, path, type). split; [ exact Hin | ].
    cbn [fst snd]. rewrite Hread. left. reflexivity.
  - cbn [shader_files In] in Hin.
    destruct Hin as [E | [E | [E | []]]]; injection E as <- <- <-;
      rewrite Hread; cbn [fst In]; auto.
  - cbn [shader_files In] in Hin.
    destruct Hin as [E | [E | [E | []]]]; injection E as <- <- <-;
      rewrite Hread; cbn [fst In]; auto.
  - now rewrite Hsaved, length_map, length_seq.
Qed.

Lemma unreadable_shader_compiled_empty_witness :
  exists g tr,
    main unreadable_env (600 + 0) = Some (g, tr)
    /\ In ("Can't read file: " ++ "../Assets/VertexShader.glsl" ++ endl)%string
          (console tr)
    /\ In (shader_name unreadable_env 0, EmptyString) (sources tr)
    /\ In (shader_name unreadable_env 0,
           compiled unreadable_env GL_VERTEX_SHADER EmptyString)
          (compiles tr)
    /\ List.length (saved_files tr) = 600%nat.
Proof.
  apply (unreadable_shader_compiled_empty
           unreadable_env 0 0 "../Assets/VertexShader.glsl" GL_VERTEX_SHADER).
  - left. reflexivity.
  - reflexivity.
Defined.

(** X9.  Every shader is attached to its program whether or not it
    compiled.  A shader that does not compile is deleted at once by
    [createShader]; at the end of the session the vertex and the fragment
    shader are deleted, a second time if they had not compiled, and the
    draw program.  The compute shader is deleted only if it did not
    compile, and the transform program never. *)
Theorem shader_deletions (env : Env) (extra : nat) :
  exists g tr,
    main env (600 + extra) = Some (g, tr)
    /\ attached tr
       = [ (program_name env 0, shader_name env 0);
           (program_name env 0, shader_name env 1);
           (program_name env 1, shader_name env 2) ]
    /\ deleted_shaders tr
       = map fst (filter (fun c => negb (snd c)) (compiles tr))
         ++ [ shader_name env 0; shader_name env 1 ]
    /\ deleted_programs tr = [ program_name env 0 ]
    /\ map fst (compiles tr)
       = [ shader_name env 0; shader_name env 1; shader_name env 2 ].
Proof.
  destruct (main_with_frames session_meshes env extra) as [g [tr [Hrun _]]].
  exists g, tr. split; [ exact Hrun | ].
  destruct (main_with_setup _ _ _ _ _ Hrun) as [_ [Hc [Hd [Hp Ha]]]].
  rewrite Hc, Hd, Hp, Ha. split; [ reflexivity | ].
  split; [ | split; reflexivity ].
  cbn [filter snd].
  destruct (compiled env GL_VERTEX_SHADER _),
           (compiled env GL_FRAGMENT_SHADER _),
           (compiled env GL_COMPUTE_SHADER _); reflexivity.
Qed.

(** X10.  A session prints, in this order, one line "Can't read file: "
    with the path for every shader file that cannot be read, then one
    report with the backend's log for every shader that does not compile,
    and nothing else: nothing about linking, nothing per frame, nothing
    about the export. *)
Theorem session_console (env : Env) (extra : nat) :
  exists g tr,
    main env (600 + extra) = Some (g, tr)
    /\ console tr
       = flat_map
           (fun f : nat * string * GLenum =>
              match file env (snd (fst f)) with
              | Some _ => []
              | None => [ ("Can't read file: " ++ snd (fst f) ++ endl)%string ]
              end)
           shader_files
         ++ flat_map
              (fun f : nat * string * GLenum =>
                 match compile_log env (snd f)
                                   (fst (readShader env (snd (fst f)))) with
                 | None => []
                 | Some infolog =>
                     [ ("The shader failed to compile with the error:" ++ endl
                        ++ infolog ++ endl)%string ]
                 end)
              shader_files.
Proof.
  destruct (main_with_frames session_meshes env extra) as [g [tr [Hrun _]]].
  exists g, tr. split; [ exact Hrun | ].
  rewrite (main_with_console_lines _ _ _ _ _ Hrun). f_equal.
  - apply flat_map_ext. intros f.
    apply (proj1 (proj2 (proj2 (proj2 (proj2 (proj2
             (readShader_readings env (snd (fst f))))))))).
  - apply flat_map_ext. intros f.
    apply (proj2 (proj2 (proj2 (proj2 (proj2
             (createShader_readings env (fst (fst f))
                (fst (readShader env (snd (fst f)))) (snd f))))))).
Qed.


(** ** The shape of the camera frustum *)

(** Rodrigues' formula keeps lengths when the direction is a unit vector
    and [ch], [sh] are a cosine and a sine. *)
Lemma rodrigues_norm (k p : vec3) (ch sh : R) :
  dot3 (rodrigues k ch sh p) (rodrigues k ch sh p)
  = dot3 p p
    + (ch * ch + sh * sh - 1) * (dot3 p p - dot3 k p * dot3 k p)
    + (dot3 k k - 1)
      * (sh * sh * dot3 p p + dot3 k p * dot3 k p * ((1 - ch) * (1 - ch))).
Proof. unfold rodrigues. destruct k, p. vec_unfold. ring. Qed.

Lemma normalize_unit (axis : vec3) :
  0 < dot3 axis axis -> dot3 (normalize axis) (normalize axis) = 1.
Proof.
  intros Hpos. unfold normalize.
  replace (dot3 (smul3 (/ sqrt (dot3 axis axis)) axis)
                (smul3 (/ sqrt (dot3 axis axis)) axis))
    with (/ sqrt (dot3 axis axis) * / sqrt (dot3 axis axis) * dot3 axis axis)
    by (destruct axis; vec_unfold; ring).
  now apply inversesqrt_sqr.
Qed.

(** A rotation about a non-zero axis keeps lengths. *)
Lemma rotate_about_norm (axis p : vec3) (theta : R) :
  0 < dot3 axis axis ->
  dot3 (rotate_about axis theta p) (rotate_about axis theta p) = dot3 p p.
Proof.
  intros Hpos. unfold rotate_about.
  rewrite rodrigues_norm, (normalize_unit axis Hpos), cos_sin_sqr. ring.
Qed.

Section FrustumShape.

Variables (eye target up : vec3) (fov ratio : R).

Hypothesis not_parallel : cross up (sub3 target eye) <> mkvec3 0 0 0.

Let w := cam_w eye target.
Let u := cam_u eye target up.
Let v := cam_v eye target up.
Let ray := cornerRay eye target up fov ratio.

Lemma right_vector_norm (s : half) :
  dot3 (right_vector eye target up fov ratio s)
       (right_vector eye target up fov ratio s)
  = dot3 u u.
Proof.
  unfold right_vector. apply rotate_about_norm.
  apply (cam_v_pos eye target up not_parallel).
Qed.

Lemma cornerRay_norm (s : half) (l : level) :
  dot3 (ray s l) (ray s l)
  = dot3 (centerRay eye target) (centerRay eye target).
Proof.
  subst ray. unfold cornerRay.
  rewrite rotate_about_norm
    by apply (right_vector_pos eye target up fov ratio not_parallel).
  apply rotate_about_norm, (cam_v_pos eye target up not_parallel).
Qed.

Lemma cornerRay_up_value (s : half) (l : level) :
  dot3 (ray s l) v = sin (vertical l fov) * (/ sqrt (dot3 u u) * dot3 v v).
Proof.
  rewrite <- (right_vector_norm s).
  set (mu := / sqrt (dot3 (right_vector eye target up fov ratio s)
                          (right_vector eye target up fov ratio s))).
  subst ray. unfold cornerRay.
  rewrite <- (neg3_involutive (centerRay eye target)).
  change (dot3
            (rodrigues
               (smul3 mu
                  (rodrigues (smul3 (/ sqrt (dot3 v v))
                                    (cross w (cross up w)))
                             (cos (horizontal s fov ratio))
                             (sin (horizontal s fov ratio)) (cross up w)))
               (cos (vertical l fov)) (sin (vertical l fov))
               (rodrigues (smul3 (/ sqrt (dot3 v v)) (cross w (cross up w)))
                          (cos (horizontal s fov ratio))
                          (sin (horizontal s fov ratio)) (neg3 w)))
            (cross w (cross up w))
          = sin (vertical l fov) * (mu * dot3 v v)).
  rewrite corner_dot_v.
  change (cross w (cross up w)) with v.
  assert (Hinv := inversesqrt_sqr _ (cam_v_pos eye target up not_parallel)).
  change (cam_v eye target up) with v in Hinv.
  rewrite Hinv, Rmult_1_r, cos_sin_sqr.
  ring.
Qed.

Lemma cornerRay_right_value (s : half) (l : level) :
  dot3 (ray s l) u
  = - (cos (vertical l fov) * sin (horizontal s fov ratio)
       * (/ sqrt (dot3 v v) * dot3 v v)).
Proof.
  set (mu := / sqrt (dot3 (right_vector eye target up fov ratio s)
                          (right_vector eye target up fov ratio s))).
  subst ray. unfold cornerRay.
  rewrite <- (neg3_involutive (centerRay eye target)).
  change (dot3
            (rodrigues
               (smul3 mu
                  (rodrigues (smul3 (/ sqrt (dot3 v v))
                                    (cross w (cross up w)))
                             (cos (horizontal s fov ratio))
                             (sin (horizontal s fov ratio)) (cross up w)))
               (cos (vertical l fov)) (sin (vertical l fov))
               (rodrigues (smul3 (/ sqrt (dot3 v v)) (cross w (cross up w)))
                          (cos (horizontal s fov ratio))
                          (sin (horizontal s fov ratio)) (neg3 w)))
            (cross up w)
          = - (cos (vertical l fov) * sin (horizontal s fov ratio)
               * (/ sqrt (dot3 v v) * dot3 v v))).
  rewrite corner_dot_u.
  change (cross w (cross up w)) with v.
  ring.
Qed.

End FrustumShape.

(** X11.  When [up] is not parallel to [center - eye], the four rays of
    [calcCameraRays] all have the length of the centre ray and form a
    frustum that is mirror-symmetric about it: along the camera's up
    vector [v] the top rays are the mirror images of the bottom rays and
    the left and right rays agree; along the right vector [u] the right
    rays are the mirror images of the left rays and the top and bottom
    rays agree.  This holds for every field of view and aspect ratio. *)
Theorem corner_rays_symmetric (eye center up : vec3) (fov ratio : R) :
  cross up (sub3 center eye) <> mkvec3 0 0 0 ->
  let f := cameraRays eye center up fov ratio in
  let c := sub3 center eye in
  let u := cross up (neg3 c) in
  let v := cross (neg3 c) u in
  (dot3 (r00 f) (r00 f) = dot3 c c /\ dot3 (r01 f) (r01 f) = dot3 c c
   /\ dot3 (r10 f) (r10 f) = dot3 c c /\ dot3 (r11 f) (r11 f) = dot3 c c)
  /\ (dot3 (r01 f) v = - dot3 (r00 f) v /\ dot3 (r11 f) v = - dot3 (r10 f) v
      /\ dot3 (r10 f) v = dot3 (r00 f) v)
  /\ (dot3 (r10 f) u = - dot3 (r00 f) u /\ dot3 (r11 f) u = - dot3 (r01 f) u
      /\ dot3 (r01 f) u = dot3 (r00 f) u).
Proof.
  intros Hup f c u v. subst f. rewrite cameraRays_corners.
  cbn [r00 r01 r10 r11].
  change c with (centerRay eye center).
  change u with (cam_u eye center up). change v with (cam_v eye center up).
  rewrite !(cornerRay_norm eye center up fov ratio Hup).
  rewrite !(cornerRay_up_value eye center up fov ratio Hup).
  rewrite !(cornerRay_right_value eye center up fov ratio).
  cbn [vertical horizontal]. rewrite !sin_neg, !cos_neg.
  repeat split; ring.
Qed.

Lemma corner_rays_symmetric_witness :
  let f :=
    cameraRays session_eye session_target session_up session_fov (1280 / 720)
  in
  let c := sub3 session_target session_eye in
  let u := cross session_up (neg3 c) in
  let v := cross (neg3 c) u in
  (dot3 (r00 f) (r00 f) = dot3 c c /\ dot3 (r01 f) (r01 f) = dot3 c c
   /\ dot3 (r10 f) (r10 f) = dot3 c c /\ dot3 (r11 f) (r11 f) = dot3 c c)
  /\ (dot3 (r01 f) v = - dot3 (r00 f) v /\ dot3 (r11 f) v = - dot3 (r10 f) v
      /\ dot3 (r10 f) v = dot3 (r00 f) v)
  /\ (dot3 (r10 f) u = - dot3 (r00 f) u /\ dot3 (r11 f) u = - dot3 (r01 f) u
      /\ dot3 (r01 f) u = dot3 (r00 f) u).
Proof.
  apply (corner_rays_symmetric session_eye session_target session_up
                               session_fov (1280 / 720)).
  unfold cross, sub3, session_up, session_target, session_eye; simpl.
  intros H. injection H as H1 H2 H3. lra.
Defined.


(** ** The animation in time *)

Lemma sin_cos_period (t : R) :
  sin (t + 2 * PI) = sin t /\ cos (t + 2 * PI) = cos t.
Proof.
  rewrite sin_plus, cos_plus, sin_2PI, cos_2PI. split; ring.
Qed.

(** X12.  The transforms and the lights repeat with period [2 * PI] of
    video time: the frame at time [t + 2 * PI] has the transforms and
    lights of the frame at time [t]. *)
Theorem scene_periodic (t : R) :
  test (t + 2 * PI) = test t /\ lights (t + 2 * PI) = lights t.
Proof.
  destruct (sin_cos_period t) as [Hs Hc].
  unfold test, lights, rotate.
  rewrite !cos_neg, !sin_neg, !Hs, !Hc. split; reflexivity.
Qed.

Lemma ground_transform (t : R) :
  nth 0 (test t) identity = scaling ((sin t + 6) / 3).
Proof. cbn [test nth]. vec_ring. Qed.

(** X13.  At every video time [t]: the floor is scaled by a factor
    between 5/3 and 7/3; the cube's transform is a similarity with a
    factor between 0 and 1, it multiplies every distance by
    [(1 + sin t) / 2]; the cube's centre is at height 1.5 on the circle
    of radius 2 about the vertical axis; light 0 is at height 4 on the
    circle of radius 2 about the vertical axis; light 1 is at height 1
    and depth 4, between -4 and 4 across. *)
Theorem scene_bounds (t : R) :
  let cube := nth 1 (test t) identity in
  let centre := apply cube (mkvec3 0 0 0) in
  let light0 := pos (nth 0 (lights t) (mklight (mkvec4 0 0 0 0) (mkvec4 0 0 0 0) 0 0)) in
  let light1 := pos (nth 1 (lights t) (mklight (mkvec4 0 0 0 0) (mkvec4 0 0 0 0) 0 0)) in
  nth 0 (test t) identity = scaling ((sin t + 6) / 3)
  /\ 5 / 3 <= (sin t + 6) / 3 <= 7 / 3
  /\ 0 <= (1 + sin t) / 2 <= 1
  /\ (forall p q : vec3,
        dot3 (sub3 (apply cube p) (apply cube q))
             (sub3 (apply cube p) (apply cube q))
        = ((1 + sin t) / 2) * ((1 + sin t) / 2)
          * dot3 (sub3 p q) (sub3 p q))
  /\ y3 centre = 1.5
  /\ x3 centre * x3 centre + z3 centre * z3 centre = 2 * 2
  /\ y4 light0 = 4
  /\ x4 light0 * x4 light0 + z4 light0 * z4 light0 = 2 * 2
  /\ y4 light1 = 1 /\ z4 light1 = 4 /\ -4 <= x4 light1 <= 4.
Proof.
  intros cube centre light0 light1.
  destruct (SIN_bound t) as [Hs1 Hs2]. destruct (COS_bound t) as [Hc1 Hc2].
  assert (Htrig := cos_sin_sqr t).
  assert (Hcube : forall p,
             apply cube p
             = add3 (mkvec3 (2 * cos t) 1.5 (2 * sin t))
                    (rotate_about (mkvec3 0 1 0) (- t)
                                  (smul3 ((1 + sin t) / 2) p))).
  { intros p. subst cube. rewrite cube_transform. apply cube_transform_apply. }
  split; [ | split; [ lra | split; [ lra | split ] ] ].
  - apply ground_transform.
  - intros p q. rewrite !Hcube, !rotate_about_vertical.
    rewrite cos_neg, sin_neg. destruct p as [px py pz], q as [qx qy qz].
    vec_unfold.
    transitivity
      ((1 + sin t) / 2 * ((1 + sin t) / 2)
       * ((px - qx) * (px - qx) + (py - qy) * (py - qy)
          + (pz - qz) * (pz - qz))
       + (cos t * cos t + sin t * sin t - 1)
         * ((1 + sin t) / 2 * ((1 + sin t) / 2)
            * ((px - qx) * (px - qx) + (pz - qz) * (pz - qz))));
      [ field | rewrite Htrig; ring ].
  - assert (Hcentre : centre = mkvec3 (2 * cos t) 1.5 (2 * sin t)).
    { subst centre. rewrite Hcube, rotate_about_vertical.
      rewrite cos_neg, sin_neg. vec_ring. }
    rewrite Hcentre. subst light0 light1.
    cbn [lights nth pos x3 y3 z3 x4 y4 z4].
    repeat split; try lra; nra.
Qed.

(** ** From the transforms to the video *)

Lemma pipeline_app (t1 t2 : list event) :
  forall shown,
    pipeline shown (t1 ++ t2)
    = pipeline shown t1 ++ pipeline (shown_after shown t1) t2.
Proof.
  induction t1 as [ | e t1 IH ]; intros shown; [ reflexivity | ].
  destruct e; cbn [app pipeline shown_after]; rewrite ?IH; try reflexivity.
  match goal with d : payload |- _ => destruct d end;
    rewrite ?IH; reflexivity.
Qed.

Lemma shown_after_app (t1 t2 : list event) :
  forall shown,
    shown_after shown (t1 ++ t2) = shown_after (shown_after shown t1) t2.
Proof.
  induction t1 as [ | e t1 IH ]; intros shown; [ reflexivity | ].
  destruct e; cbn [app shown_after]; rewrite ?IH; try reflexivity.
  match goal with d : payload |- _ => destruct d end;
    rewrite ?IH; reflexivity.
Qed.

(** A frame uploads the transforms of its video time, runs the compute
    pass on them and draws. *)
Lemma pipeline_frame_calls (g : Globals) (shown : list mat4) :
  pipeline shown (frame_calls g)
  = [ transformed (test (videoTime (totalFrame g))); drawn ]
  /\ shown_after shown (frame_calls g) = test (videoTime (totalFrame g)).
Proof. frame_shape. split; reflexivity. Qed.

(** A window title is no step of the pipeline. *)
Lemma pipeline_title (s : string) (tr : list event) (shown : list mat4) :
  pipeline shown (glfwSetWindowTitle s :: tr) = pipeline shown tr
  /\ shown_after shown (glfwSetWindowTitle s :: tr) = shown_after shown tr.
Proof. split; reflexivity. Qed.

Lemma pipeline_renderScene (now : R) (g : Globals) (shown : list mat4) :
  pipeline shown (snd (renderScene now g))
  = [ transformed (test (videoTime (totalFrame g))); drawn ]
  /\ shown_after shown (snd (renderScene now g))
     = test (videoTime (totalFrame g)).
Proof.
  destruct (renderScene_calls now g) as [E | [s E]]; rewrite E.
  - apply pipeline_frame_calls.
  - destruct (pipeline_title s (frame_calls g) shown) as [Ep Es].
    rewrite Ep, Es. apply pipeline_frame_calls.
Qed.

Lemma pipeline_viewports (sizes : list (Z * Z)) (shown : list mat4) :
  pipeline shown (map (fun wh => glViewport 0 0 (fst wh) (snd wh)) sizes)
  = []
  /\ shown_after shown
       (map (fun wh => glViewport 0 0 (fst wh) (snd wh)) sizes) = shown.
Proof. induction sizes; simpl; auto. Qed.

(** An iteration computes and draws its frame, swaps, reads back at the
    size the window has after the events, and saves under the name of
    the incremented counter. *)
Lemma pipeline_loop_body (env : Env) (pixels : Z) (n : nat) (g : Globals)
      (shown : list mat4) :
  pipeline shown (snd (loop_body env pixels n g))
  = [ transformed (test (videoTime (totalFrame g))); drawn; presented;
      read_back (fst (last (resizes env n) (width g, height g)))
                (snd (last (resizes env n) (width g, height g)));
      saved (fileName (totalFrame g + 1)) ]
  /\ shown_after shown (snd (loop_body env pixels n g))
     = test (videoTime (totalFrame g)).
Proof.
  rewrite loop_body_snd, loop_body_totalFrame.
  rewrite <- (loop_body_size env pixels n g). cbn [fst snd].
  destruct (pipeline_renderScene (clock env n) g shown) as [Hf Hs].
  rewrite pipeline_app, shown_after_app, Hf, Hs.
  cbn [app pipeline shown_after].
  destruct (pipeline_viewports (resizes env n)
                               (test (videoTime (totalFrame g))))
    as [Hf' Hs'].
  rewrite pipeline_app, shown_after_app, Hf', Hs'. split; reflexivity.
Qed.

Lemma pipeline_iterations (env : Env) (pixels : Z) (k : nat) :
  forall (n : nat) (g : Globals) (shown : list mat4),
    pipeline shown (snd (iterations env pixels k n g))
    = flat_map
        (fun i =>
           [ transformed (test (videoTime (totalFrame g + Z.of_nat i)));
             drawn; presented;
             read_back (fst (size_from env (width g, height g) n i))
                       (snd (size_from env (width g, height g) n i));
             saved (fileName (totalFrame g + Z.of_nat i + 1)) ])
        (seq 0 k)
    /\ (k <> 0%nat ->
        shown_after shown (snd (iterations env pixels k n g))
        = test (videoTime (totalFrame g + Z.of_nat k - 1))).
Proof.
  induction k as [ | k IH ]; intros n g shown;
    [ split; [ reflexivity | congruence ] | ].
  rewrite iterations_succ. cbn [snd].
  destruct (pipeline_loop_body env pixels n g shown) as [Hf Hs].
  destruct (IH (S n) (fst (loop_body env pixels n g))
               (test (videoTime (totalFrame g)))) as [IHp IHs].
  rewrite pipeline_app, shown_after_app, Hf, Hs, IHp.
  rewrite loop_body_totalFrame, loop_body_size.
  split.
  - cbn [seq flat_map size_from]. rewrite Z.add_0_r.
    cbn [app]. do 5 f_equal.
    rewrite <- (seq_shift k 0), flat_map_map.
    apply flat_map_ext. intros i.
    replace (totalFrame g + 1 + Z.of_nat i)%Z
      with (totalFrame g + Z.of_nat (S i))%Z by lia.
    reflexivity.
  - intros _. destruct k as [ | k ].
    + cbn [iterations snd shown_after]. do 2 f_equal. lia.
    + rewrite IHs by discriminate. rewrite loop_body_totalFrame.
      do 2 f_equal. lia.
Qed.

Lemma pipeline_init_with (ms : list Mesh) (env : Env) (g : Globals)
      (shown : list mat4) :
  pipeline shown (snd (init_with ms env g)) = []
  /\ shown_after shown (snd (init_with ms env g)) = shown.
Proof. init_cases; split; reflexivity. Qed.

Lemma pipeline_cleanup (g : Globals) (shown : list mat4) :
  pipeline shown (cleanup_calls g) = [ muxed ffmpeg_command ].
Proof. reflexivity. Qed.

(** X14.  A session takes its frames to the video in this order: for
    [i] from 0 to 599, the compute pass runs on the transforms of video
    time [i / 60], the frame is drawn, the buffers are swapped, the
    framebuffer is read back at the size the window has after the events
    of the iteration, and an image is saved as
    [exportedFrames/<i + 1>.png]; after the last save, and only then, the
    muxer is started, once, with the frame rate 60 and the start number
    1.  Every readback comes after the swap of its frame. *)
Theorem capture_pipeline_order (env : Env) (extra : nat) :
  exists g tr,
    main env (600 + extra) = Some (g, tr)
    /\ pipeline [] tr
       = flat_map
           (fun i : nat =>
              [ transformed (test (IZR (Z.of_nat i) / 60)); drawn; presented;
                read_back (fst (size_from env (1280, 720)%Z 0 i))
                          (snd (size_from env (1280, 720)%Z 0 i));
                saved ("exportedFrames/" ++ to_string (Z.of_nat i + 1)
                       ++ ".png")%string ])
           (seq 0 600)
         ++ [ muxed "ffmpeg -r 60 -start_number 1 -i exportedFrames/%d.png -q 0 test.avi" ].
Proof.
  eexists; eexists. split; [ apply (main_with_trace session_meshes) | ].
  rewrite !pipeline_app, pipeline_cleanup.
  rewrite (proj1 (pipeline_iterations _ _ _ _ _ _)).
  rewrite (proj1 (pipeline_init_with _ _ _ _)).
  change (pipeline [] startup_calls) with (@nil stage).
  change (pipeline ?s [CreateDirectoryA "exportedFrames"])
    with (@nil stage).
  destruct (init_with_globals session_meshes env initial_globals)
    as [Hframe [Hw Hh]].
  rewrite Hframe, Hw, Hh. cbn [app]. f_equal.
Qed.


(** ** The camera and the window size *)

Lemma camera_values_frame_calls (g : Globals) :
  map snd (uniforms (frame_calls g)) = camera_values (width g, height g).
Proof. rewrite uniforms_frame_calls. reflexivity. Qed.

Lemma uniforms_viewports (sizes : list (Z * Z)) :
  uniforms (map (fun wh => glViewport 0 0 (fst wh) (snd wh)) sizes) = [].
Proof. induction sizes; simpl; auto. Qed.

Lemma loop_body_camera (env : Env) (pixels : Z) (n : nat) (g : Globals) :
  map snd (uniforms (snd (loop_body env pixels n g)))
  = camera_values (width g, height g).
Proof.
  rewrite loop_body_snd, !uniforms_app, renderScene_uniforms,
          uniforms_viewports.
  cbn [uniforms app]. rewrite app_nil_r. apply camera_values_frame_calls.
Qed.

Lemma iterations_camera (env : Env) (pixels : Z) (k : nat) :
  forall (n : nat) (g : Globals),
    map snd (uniforms (snd (iterations env pixels k n g)))
    = flat_map (fun i => camera_values
                           (size_before env (width g, height g) n i))
               (seq 0 k).
Proof.
  induction k as [ | k IH ]; intros n g; [ reflexivity | ].
  rewrite iterations_succ. cbn [snd].
  rewrite uniforms_app, map_app, loop_body_camera, IH, loop_body_size.
  cbn [seq flat_map size_before]. f_equal.
  rewrite <- (seq_shift k 0), flat_map_map. reflexivity.
Qed.

Lemma size_before_from (env : Env) (i : nat) :
  forall (s : Z * Z) (n : nat),
    size_before env s n (S i) = size_from env s n i.
Proof.
  induction i as [ | i IH ]; intros s n; [ reflexivity | ].
  cbn [size_before size_from]. rewrite <- IH. reflexivity.
Qed.

Lemma init_with_uniforms (ms : list Mesh) (env : Env) (g : Globals) :
  uniforms (snd (init_with ms env g)) = [].
Proof. init_cases; reflexivity. Qed.

(** X15.  The camera of a frame is computed from the window size at the
    entry of its iteration: the frame of iteration [i] has the eye and
    corner rays of the size [size_before .. i].  A resize reported during
    iteration [i] therefore changes the rays from iteration [i + 1] on,
    while the readback of iteration [i] already asks for the new size:
    the size of the camera of frame [i + 1] is the size of the readback
    of frame [i]. *)
Theorem camera_follows_window (env : Env) (extra : nat) :
  (exists g tr,
      main env (600 + extra) = Some (g, tr)
      /\ map snd (uniforms tr)
         = flat_map (fun i => camera_values
                                (size_before env (1280, 720)%Z 0 i))
                    (seq 0 600)
      /\ map (fun r => fst r) (readbacks tr)
         = map (fun i => size_from env (1280, 720)%Z 0 i) (seq 0 600))
  /\ size_before env (1280, 720)%Z 0 0 = (1280, 720)%Z
  /\ forall i, size_before env (1280, 720)%Z 0 (S i)
               = size_from env (1280, 720)%Z 0 i.
Proof.
  split; [ | split; [ reflexivity | intros i; apply size_before_from ] ].
  destruct (main_with_window session_meshes env extra)
    as [g [tr [Hrun [Hread _]]]].
  exists g, tr. split; [ exact Hrun | ]. split.
  - assert (Htrace := main_with_trace session_meshes env extra).
    cbv zeta in Htrace. unfold main in Hrun. rewrite Hrun in Htrace.
    assert (Htr : tr = startup_calls
                       ++ snd (init_with session_meshes env initial_globals)
                       ++ [CreateDirectoryA "exportedFrames"]
                       ++ snd (iterations env (3 * 1280 * 720) 600 0
                                 (fst (init_with session_meshes env
                                                 initial_globals)))
                       ++ cleanup_calls
                            (fst (iterations env (3 * 1280 * 720) 600 0
                                    (fst (init_with session_meshes env
                                                    initial_globals)))))
      by congruence.
    rewrite Htr, !uniforms_app, init_with_uniforms.
    change (uniforms startup_calls) with (@nil (Z * vec3)).
    change (uniforms (cleanup_calls ?x)) with (@nil (Z * vec3)).
    cbn [app uniforms]. rewrite app_nil_r, iterations_camera.
    destruct (init_with_globals session_meshes env initial_globals)
      as [_ [Hw Hh]].
    rewrite Hw, Hh. reflexivity.
  - rewrite Hread, map_map. apply map_ext. intros i.
    cbn [fst]. now destruct (size_from env (1280, 720)%Z 0 i).
Qed.
